(** * Nuitka package configuration loader: [nuitka/utils/Yaml.py]

    A shallow embedding of the checksum codec, the [PackageConfigYaml]
    document class, the cached loader [parsePackageYaml], the singleton
    accessor [getYamlPackageConfiguration] and the maintenance entry point
    [checkOrUpdateChecksum], together with the properties the package
    configuration specification states about them.

    Python [bytes] are lists of [byte]; Python [str] is [string]; an
    [OrderedDict] is an association list in insertion order with unique
    keys; the plain dict [_yaml_cache] and the object store are [gmap]s;
    exceptions are values of [exn] carried on the left of a sum. *)

From Stdlib Require Import Strings.Byte.
From stdpp Require Import base option list strings gmap.

#[global] Instance byte_eq_decision : EqDecision byte := byte_eq_dec.

(** ** Exceptions and results *)

Inductive exn : Type :=
| SystemExit (msg : string)        (* general.sysexit / logger.sysexit *)
| KeyError (key : string)
| TypeError
| AttributeError
| AssertionError (detail : string)
| ValueError (msg : string)
| IndexError
| IOError (msg : string)
| YAMLError (msg : string).        (* raised inside the yaml package *)

Definition result (A : Type) : Type := (exn + A)%type.

Definition Raise {A : Type} (e : exn) : result A := inl e.
Definition Return {A : Type} (x : A) : result A := inr x.

Definition rbind {A B : Type} (r : result A) (k : A → result B) : result B :=
  match r with
  | inl e => inl e
  | inr x => k x
  end.

#[global] Instance result_ret : MRet result := @Return.
#[global] Instance result_bind : MBind result := λ A B k r, rbind r k.

(** ** Python [bytes] operations used by the module *)

Module Bytes.

Abbreviation bytes := (list byte).

(** A bytes literal, [b"..."]. *)
Definition b (s : string) : bytes := String.list_byte_of_string s.

(** [str.encode("utf8")]: strings are kept as their UTF-8 bytes. *)
Definition encode_utf8 (s : string) : bytes := String.list_byte_of_string s.

(** [data.startswith(prefix)] *)
Fixpoint startswith (data prefix : bytes) {struct prefix} : bool :=
  match prefix, data with
  | [], _ => true
  | p :: prefix', d :: data' => bool_decide (p = d) && startswith data' prefix'
  | _ :: _, [] => false
  end.

(** [sep in data] (substring test) *)
Fixpoint contains (sep data : bytes) : bool :=
  startswith data sep
  || match data with
     | [] => false
     | _ :: rest => contains sep rest
     end.

(** [data.find(sep)], with [None] for Python's [-1]. *)
Fixpoint find (sep data : bytes) : option nat :=
  if startswith data sep then Some 0
  else match data with
       | [] => None
       | _ :: rest => S <$> find sep rest
       end.

(** [data.split(sep, maxsplit)] for a non-empty [sep]: scan left to
    right, cutting at most [maxsplit] times at the next occurrence that
    starts at or after the end of the previous one. *)
Fixpoint split (sep : bytes) (maxsplit : nat) (data : bytes) : list bytes :=
  match maxsplit with
  | 0 => [data]
  | S n =>
      match find sep data with
      | None => [data]
      | Some i => take i data :: split sep n (drop (i + length sep) data)
      end
  end.

(** [bytes.splitlines()]: line boundaries are LF, CR and CRLF; the
    terminators are dropped and a final terminator opens no new line. *)
Fixpoint splitlines_from (cur data : bytes) : list bytes :=
  match data with
  | [] => match cur with [] => [] | _ :: _ => [cur] end
  | c :: rest =>
      if bool_decide (c = x0a) then cur :: splitlines_from [] rest
      else if bool_decide (c = x0d) then
        match rest with
        | c' :: rest' =>
            if bool_decide (c' = x0a) then cur :: splitlines_from [] rest'
            else cur :: splitlines_from [] rest
        | [] => cur :: splitlines_from [] rest
        end
      else splitlines_from (cur ++ [c]) rest
  end.

Definition splitlines (data : bytes) : list bytes := splitlines_from [] data.

(** ASCII whitespace, as [bytes.split()] without arguments sees it. *)
Definition isspace (c : byte) : bool :=
  bool_decide (c = x20) || bool_decide (c = x09) || bool_decide (c = x0a)
  || bool_decide (c = x0d) || bool_decide (c = x0b) || bool_decide (c = x0c).

(** [data.split()]: maximal runs of non-whitespace bytes. *)
Fixpoint split_ws_from (cur data : bytes) : list bytes :=
  match data with
  | [] => match cur with [] => [] | _ :: _ => [cur] end
  | c :: rest =>
      if isspace c then
        match cur with
        | [] => split_ws_from [] rest
        | _ :: _ => cur :: split_ws_from [] rest
        end
      else split_ws_from (cur ++ [c]) rest
  end.

Definition split_ws (data : bytes) : list bytes := split_ws_from [] data.

(** [sep.join(parts)] *)
Fixpoint join (sep : bytes) (parts : list bytes) : bytes :=
  match parts with
  | [] => []
  | [p] => p
  | p :: rest => p ++ sep ++ join sep rest
  end.

(** The separator occurs in [data] at offset [k]. *)
Definition occurs_at (sep data : bytes) (k : nat) : bool :=
  startswith (drop k data) sep.

Definition is_linebreak (c : byte) : bool :=
  bool_decide (c = x0a) || bool_decide (c = x0d).

Definition no_linebreak (line : bytes) : Prop :=
  Forall (λ c, is_linebreak c = false) line.

(** A token: non-empty and free of whitespace, as a hex digest is. *)
Definition is_token (token : bytes) : Prop :=
  token ≠ [] ∧ Forall (λ c, isspace c = false) token.

End Bytes.

Import Bytes.

(** The fixed byte strings of the checksum protocol. *)

(** [b"\n---\n"] *)
Definition header_separator : bytes := [x0a] ++ b "---" ++ [x0a].

(** [b"# checksum: "], the marker the reader looks for. *)
Definition checksum_marker : bytes := b "# checksum: ".

(** [b"# checksum:"], the marker the maintenance tool looks for. *)
Definition checksum_marker_tool : bytes := b "# checksum:".

(** ** Parsed YAML values

    What the safe loader hands over: scalars, sequences and mappings, the
    mappings as [OrderedDict]s with string keys, which is what package
    configuration files contain. Floats and dates are left out. *)

#[local] Set Warnings "-register-all".

Inductive value : Type :=
| VNone
| VBool (flag : bool)
| VInt (z : Z)
| VStr (s : string)
| VList (items : list value)
| VDict (entries : list (string * value)).

(** ** Ordered dictionaries *)

Module OrderedDict.

Definition t (V : Type) : Type := list (string * V).

(** [d.get(key)] *)
Fixpoint get {V : Type} (key : string) (d : t V) : option V :=
  match d with
  | [] => None
  | (k, v) :: rest => if decide (k = key) then Some v else get key rest
  end.

(** [key in d] *)
Definition contains {V : Type} (key : string) (d : t V) : bool :=
  bool_decide (is_Some (get key d)).

(** [d[key] = v]: an existing key keeps its position, a new one goes last. *)
Fixpoint set {V : Type} (key : string) (v : V) (d : t V) : t V :=
  match d with
  | [] => [(key, v)]
  | (k, w) :: rest =>
      if decide (k = key) then (k, v) :: rest else (k, w) :: set key v rest
  end.

(** [d.pop(key)] without a default: the value and the remaining mapping,
    [None] when the key is absent (Python raises [KeyError]). *)
Fixpoint pop {V : Type} (key : string) (d : t V) : option (V * t V) :=
  match d with
  | [] => None
  | (k, v) :: rest =>
      if decide (k = key) then Some (v, rest)
      else '(w, rest') ← pop key rest; Some (w, (k, v) :: rest')
  end.

Definition keys {V : Type} (d : t V) : list string := d.*1.

(** The representation invariant: keys are unique. *)
Definition wf {V : Type} (d : t V) : Prop := NoDup (keys d).

End OrderedDict.

(** ** Python strings *)

(** [sub in s] on [str]. *)
Fixpoint str_contains (sub s : string) : bool :=
  String.prefix sub s
  || match s with
     | EmptyString => false
     | String _ rest => str_contains sub rest
     end.

(** ** The collaborators that live outside this module *)

Class Externals : Type := {
  (** [nuitka.utils.Hashing.getStringHash]: a hex digest of the bytes. *)
  getStringHash : bytes → string;
  (** [nuitka.utils.ModuleNames.checkModuleName] *)
  checkModuleName : value → bool;
  (** [pkgutil.get_data], [None] when the resource does not exist. *)
  pkgutil_get_data : string → string → option bytes;
  (** [yaml.load(data, OrderedLoader)]: the parsed document, or the text
      of the [YAMLError] the yaml package raises. *)
  yaml_load : bytes → string + value;
  (** [nuitka.Options.getUserProvidedYamlFiles] *)
  getUserProvidedYamlFiles : list string;
  (** The builtin [repr], which is how ["%s"] prints a list or a mapping. *)
  repr : value → string
}.

(** ** Checksum codec *)

(** [getYamlFileChecksum]: [Return None] is the [return None] at the end. *)
Definition getYamlFileChecksum (yaml_data : bytes) : result (option bytes) :=
  let lines := splitlines yaml_data in
  match lines !! 4 with
  | Some line4 =>
      if startswith line4 checksum_marker then
        match split_ws line4 !! 2 with
        | Some token => Return (Some token)
        | None => Raise IndexError
        end
      else Return None
  | None => Return None
  end.

(** [yaml_data.split(b"\n---\n", 2)[1]] *)
Definition document_body (yaml_data : bytes) : result bytes :=
  match split header_separator 2 yaml_data !! 1 with
  | Some body => Return body
  | None => Raise IndexError
  end.

Definition _calculateYamlFileChecksum `{Externals} (yaml_data : bytes) : result bytes :=
  if negb (contains header_separator yaml_data) then
    Raise (ValueError "Malformed yaml data without --- header")
  else
    body ← document_body yaml_data;
    Return (encode_utf8 (getStringHash body)).

(** ** The [PackageConfigYaml] class *)

(** Python truth value of a parsed scalar or container. *)
Definition truthy (v : value) : bool :=
  match v with
  | VNone => false
  | VBool flag => flag
  | VInt z => negb (z =? 0)%Z
  | VStr s => negb (bool_decide (s = ""))
  | VList items => match items with [] => false | _ :: _ => true end
  | VDict entries => match entries with [] => false | _ :: _ => true end
  end.

(** ["/" in module_name]: substring test on a string, membership on a
    list, key membership on a mapping, [TypeError] on other scalars. *)
Definition slash_in (module_name : value) : result bool :=
  match module_name with
  | VStr s => Return (str_contains "/" s)
  | VList items =>
      Return (existsb (λ x, match x with
                            | VStr s => bool_decide (s = "/")
                            | _ => false
                            end) items)
  | VDict entries => Return (OrderedDict.contains "/" entries)
  | VNone | VBool _ | VInt _ => Raise TypeError
  end.

(** The texts handed to [general.sysexit] by the constructor. *)

Definition empty_name_message (self_name : string) : string :=
  "Error, invalid config in '" +:+ self_name
  +:+ "' looks like an empty module name was given.".

Definition file_path_message (self_name s : string) : string :=
  "Error, invalid module name in '" +:+ self_name
  +:+ "' looks like a file path '" +:+ s +:+ "'.".

Definition not_valid_message (self_name s : string) : string :=
  "Error, invalid module name in '" +:+ self_name
  +:+ "' not valid '" +:+ s +:+ "'.".

Definition duplicate_message (s : string) : string :=
  "Duplicate module-name '" +:+ s +:+ "' encountered.".

(** ["%s" % module_name] *)
Definition percent_s `{Externals} (v : value) : string :=
  match v with
  | VStr s => s
  | _ => repr v
  end.

Module PackageConfigYaml.

(** The two slots of the class; [data] maps a module name to what is left
    of its record once ["module-name"] has been popped. *)
Record t : Type := Build {
  name : string;
  data : OrderedDict.t (OrderedDict.t value)
}.

(** One round of the loop of [__init__] (source lines 58 to 81). The
    records of a document are taken to be distinct objects, so that popping
    ["module-name"] from one leaves the others as they are. *)
Definition accept_item `{Externals} (self_name : string)
    (self_data : OrderedDict.t (OrderedDict.t value)) (item : value)
    : result (OrderedDict.t (OrderedDict.t value)) :=
  match item with
  | VDict entries =>
      match OrderedDict.pop "module-name" entries with
      | None => Raise (KeyError "module-name")
      | Some (module_name, item') =>
          if negb (truthy module_name) then
            Raise (SystemExit (empty_name_message self_name))
          else
            has_slash ← slash_in module_name;
            if (has_slash : bool) then
              Raise (SystemExit
                (file_path_message self_name (percent_s module_name)))
            else if negb (checkModuleName module_name) then
              Raise (SystemExit
                (not_valid_message self_name (percent_s module_name)))
            else
              match module_name with
              | VStr s =>
                  if OrderedDict.contains s self_data then
                    Raise (SystemExit (duplicate_message s))
                  else Return (OrderedDict.set s item' self_data)
              | _ =>
                  (* a list or a mapping is unhashable:
                     [module_name in self.data] raises *)
                  Raise TypeError
              end
      end
  | VList _ => Raise TypeError        (* list.pop("module-name") *)
  | VNone | VBool _ | VInt _ | VStr _ => Raise AttributeError
  end.

Fixpoint init_loop `{Externals} (self_name : string)
    (self_data : OrderedDict.t (OrderedDict.t value)) (items : list value)
    : result (OrderedDict.t (OrderedDict.t value)) :=
  match items with
  | [] => Return self_data
  | item :: rest =>
      self_data' ← accept_item self_name self_data item;
      init_loop self_name self_data' rest
  end.

(** [PackageConfigYaml(name, data)] *)
Definition __init__ `{Externals} (name : string) (data : value) : result t :=
  match data with
  | VList items =>
      self_data ← init_loop name [] items;
      Return (Build name self_data)
  | _ => Raise (AssertionError "")      (* assert type(data) is list *)
  end.

(** What [get] hands back: a tuple it built itself, or the stored payload
    as it is. *)
Inductive section : Type :=
| Tuple (members : list value)
| Payload (v : value).

(** [self.get(name, section)]. Entries are mappings, never [None], so
    [self.data.get(name)] is [None] exactly for an unknown module. *)
Definition get (self : t) (name section_name : string) : section :=
  let result :=
    match OrderedDict.get name (data self) with
    | Some entry =>
        match OrderedDict.get section_name entry with
        | Some payload => Payload payload
        | None => Tuple []
        end
    | None => Tuple []
    end in
  match result with
  | Payload (VDict entries) => Tuple [VDict entries]
  | _ => result
  end.

Definition keys (self : t) : list string := OrderedDict.keys (data self).

Definition items (self : t) : list (string * OrderedDict.t value) := data self.

(** The loop of [update] over [other.items()]: the mapping of [self] as
    the loop leaves it, and the assertion failure that stopped it, if any. *)
Fixpoint update_loop (self_data : OrderedDict.t (OrderedDict.t value))
    (other_items : list (string * OrderedDict.t value))
    : OrderedDict.t (OrderedDict.t value) * option exn :=
  match other_items with
  | [] => (self_data, None)
  | (key, entry) :: rest =>
      if OrderedDict.contains key self_data then
        (self_data, Some (AssertionError key))
      else update_loop (OrderedDict.set key entry self_data) rest
  end.

(** [self.update(other)] on the objects themselves. *)
Definition update (self other : t) : t * option exn :=
  let '(self_data, failure) := update_loop (data self) (items other) in
  (Build (name self) self_data, failure).

End PackageConfigYaml.

(** ** Process state

    Objects have identity: a [PackageConfigYaml] lives in the object store
    under a reference, and [_yaml_cache] and [_package_config] hold
    references, so a cached document that becomes the aggregate is one
    object under two names. *)

Definition ref : Type := nat.

(** One entry per call of [parseYaml] (the load-count hook). *)
Inductive parse_event : Type :=
| ParsedResource (package_name filename : string)
| ParsedUserFile (filename : string).

Record state : Type := State {
  objects : gmap ref PackageConfigYaml.t;
  _yaml_cache : gmap (string * string) ref;
  _package_config : option ref;
  files : gmap string bytes;           (* the file system *)
  warnings : list string;              (* general.warning *)
  infos : list string;                 (* logger.info *)
  parse_calls : list parse_event
}.

Definition initial_state (fs : gmap string bytes) : state :=
  State ∅ ∅ None fs [] [] [].

Definition set_objects (f : gmap ref PackageConfigYaml.t → gmap ref PackageConfigYaml.t)
    (s : state) : state :=
  State (f (objects s)) (_yaml_cache s) (_package_config s) (files s)
        (warnings s) (infos s) (parse_calls s).

Definition set_yaml_cache (f : gmap (string * string) ref → gmap (string * string) ref)
    (s : state) : state :=
  State (objects s) (f (_yaml_cache s)) (_package_config s) (files s)
        (warnings s) (infos s) (parse_calls s).

Definition set_package_config (r : option ref) (s : state) : state :=
  State (objects s) (_yaml_cache s) r (files s)
        (warnings s) (infos s) (parse_calls s).

Definition set_files (f : gmap string bytes → gmap string bytes) (s : state) : state :=
  State (objects s) (_yaml_cache s) (_package_config s) (f (files s))
        (warnings s) (infos s) (parse_calls s).

Definition add_warning (msg : string) (s : state) : state :=
  State (objects s) (_yaml_cache s) (_package_config s) (files s)
        (warnings s ++ [msg]) (infos s) (parse_calls s).

Definition add_info (msg : string) (s : state) : state :=
  State (objects s) (_yaml_cache s) (_package_config s) (files s)
        (warnings s) (infos s ++ [msg]) (parse_calls s).

Definition add_parse_call (ev : parse_event) (s : state) : state :=
  State (objects s) (_yaml_cache s) (_package_config s) (files s)
        (warnings s) (infos s) (parse_calls s ++ [ev]).

(** Computations that read and write the state and may raise. *)
Definition M (A : Type) : Type := state → result A * state.

#[global] Instance M_ret : MRet M := λ A x s, (Return x, s).

#[global] Instance M_bind : MBind M := λ A B k m s,
  match m s with
  | (inl e, s') => (inl e, s')
  | (inr x, s') => k x s'
  end.

Definition raise {A : Type} (e : exn) : M A := λ s, (Raise e, s).

Definition lift {A : Type} (r : result A) : M A := λ s, (r, s).

Definition gets {A : Type} (f : state → A) : M A := λ s, (Return (f s), s).

Definition modify (f : state → state) : M unit := λ s, (Return (), f s).

(** [try: m  except IOError: pass] *)
Definition except_IOError (m : M unit) : M unit := λ s,
  match m s with
  | (inl (IOError _), s') => (Return (), s')
  | outcome => outcome
  end.

(** Constructing an object gives it a reference no live object has. *)
Definition new (obj : PackageConfigYaml.t) : M ref := λ s,
  let r := fresh (dom (objects s)) in
  (Return r, set_objects <[r := obj]> s).

(** [FileOperations.getFileContents(filename, mode="rb")] *)
Definition getFileContents (filename : string) : M bytes :=
  contents ← gets (λ s, files s !! filename);
  match contents with
  | Some data => mret data
  | None => raise (IOError filename)
  end.

(** [with openTextFile(filename, "wb") as f: f.write(data)] *)
Definition writeFile (filename : string) (data : bytes) : M unit :=
  modify (set_files <[filename := data]>).

(** [parseYaml(data)] with the yaml package behind [yaml_load]. *)
Definition parseYaml `{Externals} (data : bytes) : result value :=
  match yaml_load data with
  | inl msg => Raise (YAMLError msg)
  | inr document => Return document
  end.

(** [self.update(other)] through references; [self] is mutated in place
    up to the point where an assertion fails. *)
Definition update (self other : ref) : M unit := λ s,
  match objects s !! self, objects s !! other with
  | Some self_obj, Some other_obj =>
      let '(self_obj', failure) := PackageConfigYaml.update self_obj other_obj in
      let s' := set_objects <[self := self_obj']> s in
      match failure with
      | None => (Return (), s')
      | Some e => (Raise e, s')
      end
  | _, _ => (Raise AttributeError, s)   (* no dangling reference arises *)
  end.

(** ** Config loader *)

(** Source lines 204 to 218 of [parsePackageYaml]: the value of
    [validated] once the checksum has been looked at. *)
Definition classify_checksum `{Externals} (data : bytes) : result string :=
  let lines := splitlines data in
  match lines !! 4 with
  | Some line4 =>                                    (* len(lines) > 4 *)
      if startswith line4 checksum_marker then
        match split_ws line4 !! 2 with
        | None => Raise IndexError
        | Some file_checksum =>
            computed ← _calculateYamlFileChecksum data;
            if bool_decide (file_checksum ≠ computed) then Return "not matching"
            else Return "matching"
        end
      else Return "not present"
  | None => Return "not present"
  end.

(** The text handed to [general.warning]. *)
Definition checksum_warning (filename validated : string) : string :=
  "Using file " +:+ filename +:+ " with " +:+ validated +:+ " checksum.".

(** Source lines 199 to 223: the body of [if key not in _yaml_cache]. *)
Definition load_resource `{Externals} (package_name filename : string) : M unit :=
  match pkgutil_get_data package_name filename with
  | None => raise (IOError ("Cannot find " +:+ package_name +:+ "." +:+ filename))
  | Some data =>
      validated ← lift (classify_checksum data);
      (if bool_decide (validated ≠ "matching") then
         modify (add_warning (checksum_warning filename validated))
       else mret ());;
      modify (add_parse_call (ParsedResource package_name filename));;
      parsed ← lift (parseYaml data);
      doc ← lift (PackageConfigYaml.__init__ filename parsed);
      r ← new doc;
      modify (set_yaml_cache <[(package_name, filename) := r]>)
  end.

Definition parsePackageYaml `{Externals} (package_name filename : string) : M ref :=
  let key := (package_name, filename) in
  cached ← gets (λ s, _yaml_cache s !! key);
  (if bool_decide (cached = None) then load_resource package_name filename
   else mret ());;
  entry ← gets (λ s, _yaml_cache s !! key);      (* return _yaml_cache[key] *)
  match entry with
  | Some r => mret r
  | None => raise (KeyError filename)
  end.

(** ** Config aggregator *)

(** [_package_config.update(other)] with [other] still to be evaluated. *)
Definition package_config_update (other : M ref) : M unit :=
  self ← gets _package_config;
  match self with
  | None => raise AttributeError
  | Some self_ref => other_ref ← other; update self_ref other_ref
  end.

(** The loop over [getUserProvidedYamlFiles()]. *)
Fixpoint merge_user_files `{Externals} (filenames : list string) : M unit :=
  match filenames with
  | [] => mret ()
  | user_yaml_filename :: rest =>
      package_config_update
        (data ← getFileContents user_yaml_filename;
         modify (add_parse_call (ParsedUserFile user_yaml_filename));;
         parsed ← lift (parseYaml data);
         doc ← lift (PackageConfigYaml.__init__ user_yaml_filename parsed);
         new doc);;
      merge_user_files rest
  end.

(** Source lines 241 to 272: everything merged into the standard
    document. *)
Definition merge_further_sources `{Externals} : M unit :=
  package_config_update
    (parsePackageYaml "nuitka.plugins.standard" "stdlib2.nuitka-package.config.yml");;
  package_config_update
    (parsePackageYaml "nuitka.plugins.standard" "stdlib3.nuitka-package.config.yml");;
  except_IOError
    (package_config_update
       (parsePackageYaml "nuitka.plugins.commercial"
                         "commercial.nuitka-package.config.yml"));;
  merge_user_files getUserProvidedYamlFiles.

(** The body of [if _package_config is None]. *)
Definition build_package_config `{Externals} : M unit :=
  standard ← parsePackageYaml "nuitka.plugins.standard"
                              "standard.nuitka-package.config.yml";
  modify (set_package_config (Some standard));;
  merge_further_sources.

Definition getYamlPackageConfiguration `{Externals} : M (option ref) :=
  current ← gets _package_config;
  (if bool_decide (current = None) then build_package_config else mret ());;
  gets _package_config.

(** ** Checksum maintenance tool *)

Definition checkOrUpdateChecksum `{Externals} (filename : string) (update : bool)
    : M unit :=
  yaml_data_old ← getFileContents filename;
  let lines := splitlines yaml_data_old in
  match lines !! 4 with
  | Some line4 =>
      if negb (startswith line4 checksum_marker_tool) then
        raise (SystemExit "Make sure the file is autoformatted first.")
      else
        digest ← lift (_calculateYamlFileChecksum yaml_data_old);
        let lines := <[4 := b "# checksum: " ++ digest]> lines in
        let yaml_data_new := join [x0a] lines ++ [x0a] in
        if bool_decide (yaml_data_new ≠ yaml_data_old) then
          if update then
            writeFile filename yaml_data_new;;
            modify (add_info "OK, updated checksum.")
          else
            raise (SystemExit
              "Error, checksum does not match, use --update or enable commit hook.")
        else modify (add_info "OK, checksum valid.")
  | None =>                                         (* len(lines) < 5 *)
      raise (SystemExit "Make sure the file is autoformatted first.")
  end.

(** The content the tool compares the file with, and writes. *)
Definition rewritten (old digest : bytes) : bytes :=
  join [x0a] (<[4 := b "# checksum: " ++ digest]> (splitlines old)) ++ [x0a].

(** The bytes of an LF-joined file that come before line [i], and those
    that come after it, final line feed included. *)
Definition before_line (i : nat) (lines : list bytes) : bytes :=
  concat ((λ line, line ++ [x0a]) <$> take i lines).

Definition after_line (i : nat) (lines : list bytes) : bytes :=
  concat ((λ line, [x0a] ++ line) <$> drop (S i) lines) ++ [x0a].

(** ** Reasoning about stateful code *)

(** The keys [parsePackageYaml] has handed to the parser so far. *)
Definition resource_parses (s : state) : list (string * string) :=
  omap (λ ev, match ev with
              | ParsedResource package_name filename => Some (package_name, filename)
              | ParsedUserFile _ => None
              end) (parse_calls s).

(** Every key was parsed at most once, and what was parsed is cached. *)
Definition parsed_once_cached (s : state) : Prop :=
  NoDup (resource_parses s)
  ∧ ∀ key, key ∈ resource_parses s → is_Some (_yaml_cache s !! key).

(** The call returned, or raised the [IOError] a caller may catch. *)
Definition returned_or_IOError {A : Type} (outcome : result A) : Prop :=
  match outcome with
  | inr _ => True
  | inl (IOError _) => True
  | inl _ => False
  end.

(** [m] takes a state satisfying [P] to one satisfying [P] whenever it
    returns or raises [IOError]. *)
Definition keeps {A : Type} (P : state → Prop) (m : M A) : Prop :=
  ∀ s outcome s', P s → m s = (outcome, s') → returned_or_IOError outcome → P s'.

(** States of a process in which every call of the loader and of the
    accessor made so far has returned. *)
Inductive reachable `{Externals} : state → Prop :=
| reachable_initial (fs : gmap string bytes) :
    reachable (initial_state fs)
| reachable_parsePackageYaml (s s' : state) (package_name filename : string) (r : ref) :
    reachable s →
    parsePackageYaml package_name filename s = (Return r, s') →
    reachable s'
| reachable_getYamlPackageConfiguration (s s' : state) (config : option ref) :
    reachable s →
    getYamlPackageConfiguration s = (Return config, s') →
    reachable s'.

(** What [parsePackageYaml] does on a cache miss once [validated] is
    known and the warning, if any, is out: source line 223 and the return. *)
Definition parse_construct_cache `{Externals} (package_name filename : string)
    (data : bytes) : M ref :=
  modify (add_parse_call (ParsedResource package_name filename));;
  parsed ← lift (parseYaml data);
  doc ← lift (PackageConfigYaml.__init__ filename parsed);
  r ← new doc;
  modify (set_yaml_cache <[(package_name, filename) := r]>);;
  entry ← gets (λ s, _yaml_cache s !! (package_name, filename));
  match entry with
  | Some r => mret r
  | None => raise (KeyError filename)
  end.

(** [m] takes a state satisfying [P] to one satisfying [P], whatever the
    outcome. *)
Definition preserves {A : Type} (P : state → Prop) (m : M A) : Prop :=
  ∀ s, P s → P (m s).2.

(** [kv] is what the constructor stores for the record [item]: the name
    under ["module-name"], which passed the checks, and the rest of the
    record. *)
Definition accepted_record `{Externals} (item : value)
    (kv : string * OrderedDict.t value) : Prop :=
  ∃ entries,
    item = VDict entries
    ∧ OrderedDict.pop "module-name" entries = Some (VStr kv.1, kv.2)
    ∧ kv.1 ≠ ""
    ∧ str_contains "/" kv.1 = false
    ∧ checkModuleName (VStr kv.1) = true.

(** What [get] makes of a stored payload, or of its absence. *)
Definition as_section (payload : option value) : PackageConfigYaml.section :=
  match payload with
  | Some (VDict entries) => PackageConfigYaml.Tuple [VDict entries]
  | Some v => PackageConfigYaml.Payload v
  | None => PackageConfigYaml.Tuple []
  end.

(** The key of the standard document in [_yaml_cache]. *)
Definition standard_key : string * string :=
  ("nuitka.plugins.standard", "standard.nuitka-package.config.yml").

(** What the maintenance tool leaves untouched: everything but the file
    named and the log. *)
Definition same_but_file (filename : string) (s s' : state) : Prop :=
  objects s' = objects s
  ∧ _yaml_cache s' = _yaml_cache s
  ∧ _package_config s' = _package_config s
  ∧ warnings s' = warnings s
  ∧ parse_calls s' = parse_calls s
  ∧ ∀ other, other ≠ filename → files s' !! other = files s !! other.

(** What the loader and the aggregator leave untouched in any case. *)
Definition same_outside_loader (s s' : state) : Prop :=
  files s' = files s ∧ infos s' = infos s.

(** ** A sample installation

    Concrete collaborators and documents on which the model is run. *)

Module Sample.

Definition hex_digit (n : nat) : string :=
  match n with
  | 0 => "0" | 1 => "1" | 2 => "2" | 3 => "3" | 4 => "4" | 5 => "5"
  | 6 => "6" | 7 => "7" | 8 => "8" | 9 => "9" | 10 => "a" | 11 => "b"
  | 12 => "c" | 13 => "d" | 14 => "e" | _ => "f"
  end.

(** A toy hex digest: the byte sum modulo 256, as two hex digits. *)
Definition hash (data : bytes) : string :=
  let total := foldr (λ c acc, (Byte.to_nat c + acc) mod 256) 0 data in
  hex_digit (total / 16) +:+ hex_digit (total mod 16).

Definition is_identifier_start (c : Ascii.ascii) : bool :=
  let n := Ascii.nat_of_ascii c in
  ((65 <=? n) && (n <=? 90)) || ((97 <=? n) && (n <=? 122)) || (n =? 95).

Definition is_identifier_char (c : Ascii.ascii) : bool :=
  let n := Ascii.nat_of_ascii c in
  is_identifier_start c || ((48 <=? n) && (n <=? 57)).

Fixpoint dotted_identifier (at_start : bool) (s : string) : bool :=
  match s with
  | EmptyString => negb at_start
  | String c rest =>
      if Ascii.nat_of_ascii c =? 46 then negb at_start && dotted_identifier true rest
      else if at_start then is_identifier_start c && dotted_identifier false rest
      else is_identifier_char c && dotted_identifier false rest
  end.

(** Modelled from the spec: [checkModuleName] of
    nuitka/utils/ModuleNames.py is not in the sources at hand; the
    specification asks that each dot-separated component of a module name
    be a valid identifier. *)
Definition check_module_name (v : value) : bool :=
  match v with
  | VStr s => dotted_identifier true s
  | _ => false
  end.

Definition header : list bytes :=
  [b "# yamllint disable rule:line-length";
   b "# too many spelling things, spell-checker: disable";
   b "# yaml-language-server: $schema=nuitka-package-config-schema.json";
   b "# please keep the checksum line below"].

(** A document with the given checksum line and body. *)
Definition document (checksum_line body : bytes) : bytes :=
  join [x0a] (header ++ [checksum_line; b "---"]) ++ [x0a] ++ body.

(** A document whose checksum line is up to date. *)
Definition sealed (body : bytes) : bytes :=
  document (b "# checksum: " ++ encode_utf8 (hash body)) body.

Definition standard_body : bytes :=
  b "- module-name: 'foo'" ++ [x0a] ++ b "  data-files:" ++ [x0a]
  ++ b "    dirs: ['x']" ++ [x0a].

Definition stdlib2_body : bytes := b "- module-name: 'bar.baz'" ++ [x0a].

Definition stdlib3_body : bytes := b "- module-name: 'qux'" ++ [x0a].

Definition user_body : bytes := b "- module-name: 'mine'" ++ [x0a].

(** The marker is there, the separator is not. *)
Definition headless : bytes :=
  join [x0a] (header ++ [b "# checksum: 00"; b "- module-name: 'foo'"]) ++ [x0a].

(** The stored digest is the right one, the final newline is missing. *)
Definition unterminated : bytes := sealed (b "- module-name: 'foo'").

(** The stored digest is not the one of the body. *)
Definition stale : bytes := document (b "# checksum: 00") standard_body.

Definition standard_value : value :=
  VList [VDict [("module-name", VStr "foo");
                ("data-files", VDict [("dirs", VList [VStr "x"])])]].

Definition get_data (package_name filename : string) : option bytes :=
  if bool_decide (package_name = "nuitka.plugins.standard") then
    if bool_decide (filename = "standard.nuitka-package.config.yml")
    then Some (sealed standard_body)
    else if bool_decide (filename = "stdlib2.nuitka-package.config.yml")
    then Some (sealed stdlib2_body)
    else if bool_decide (filename = "stdlib3.nuitka-package.config.yml")
    then Some (sealed stdlib3_body)
    else if bool_decide (filename = "headless.yml") then Some headless
    else if bool_decide (filename = "stale.yml") then Some stale
    else None
  else None.

(** The parser on the sample documents, as a table. *)
Definition load (data : bytes) : string + value :=
  if bool_decide (data = sealed standard_body) then inr standard_value
  else if bool_decide (data = stale) then inr standard_value
  else if bool_decide (data = headless) then
    inr (VList [VDict [("module-name", VStr "foo")]])
  else if bool_decide (data = sealed stdlib2_body) then
    inr (VList [VDict [("module-name", VStr "bar.baz")]])
  else if bool_decide (data = sealed stdlib3_body) then
    inr (VList [VDict [("module-name", VStr "qux")]])
  else if bool_decide (data = user_body) then
    inr (VList [VDict [("module-name", VStr "mine")]])
  else inl "could not determine a constructor".

Definition externals : Externals := {|
  getStringHash := hash;
  checkModuleName := check_module_name;
  pkgutil_get_data := get_data;
  yaml_load := load;
  getUserProvidedYamlFiles := ["user.yml"];
  repr := λ _, "[...]"
|}.

Definition file_system : gmap string bytes :=
  {[ "user.yml" := user_body;
     "stale.yml" := stale;
     "unterminated.yml" := unterminated ]}.

Definition start : state := initial_state file_system.

(** The state the first call of the accessor leaves behind. *)
Definition built : state := (@getYamlPackageConfiguration externals start).2.

(** The state after loading the standard document alone. *)
Definition loaded : state :=
  (@parsePackageYaml externals "nuitka.plugins.standard"
     "standard.nuitka-package.config.yml" start).2.

(** Two separators, with a body between them. *)
Definition two_documents : bytes :=
  b "# head" ++ header_separator ++ b "- module-name: 'foo'"
  ++ header_separator ++ b "- module-name: 'bar'".

(** The marker on line 4 with nothing behind it. *)
Definition bare_marker : bytes :=
  join [x0a] (header ++ [b "# checksum: "; b "---"; b "- module-name: 'foo'"])
  ++ [x0a].

Definition foo_bar_twice : list value :=
  [VDict [("module-name", VStr "foo.bar"); ("data-files", VNone)];
   VDict [("module-name", VStr "foo.bar")]].

Definition foo_document : PackageConfigYaml.t :=
  PackageConfigYaml.Build "standard.yml"
    [("foo", [("data-files", VDict [("dirs", VList [VStr "x"])])])].

Definition bar_document : PackageConfigYaml.t :=
  PackageConfigYaml.Build "stdlib.yml" [("bar", [("anti-bloat", VList [])])].

(** The same installation with a user file that configures ["foo"], a
    module the standard document has already. *)
Definition clashing : Externals := {|
  getStringHash := hash;
  checkModuleName := check_module_name;
  pkgutil_get_data := get_data;
  yaml_load := load;
  getUserProvidedYamlFiles := ["stale.yml"];
  repr := λ _, "[...]"
|}.

(** The state after the accessor of the clashing installation has failed. *)
Definition failed : state := (@getYamlPackageConfiguration clashing start).2.

(** One separator only, as shipped files have it. *)
Definition one_document : bytes := sealed standard_body.

Definition baz_document : PackageConfigYaml.t :=
  PackageConfigYaml.Build "user.yml"
    [("baz", [("options", VNone)]); ("foo", [("options", VNone)]);
     ("late", [("options", VNone)])].

(** A stale checksum, and a CRLF inside the body. *)
Definition crlf_stale : bytes :=
  document (b "# checksum: 00")
    (b "- module-name: 'foo'" ++ [x0d; x0a] ++ b "  implicit-imports: []" ++ [x0a]).

Definition crlf_start : state := initial_state {[ "crlf.yml" := crlf_stale ]}.

End Sample.

(** * Properties *)

(** Unfolding the two monads. *)

Ltac unfold_result :=
  unfold mbind, result_bind, rbind, mret, result_ret, Return, Raise in *.

Ltac unfold_M :=
  unfold mbind, M_bind, mret, M_ret, gets, lift, raise, modify, Return, Raise in *.


(** ** Byte strings *)

Section BytesFacts.

Implicit Types (sep data pre mid post rest line : bytes) (c : byte).

Lemma startswith_app sep rest : startswith (sep ++ rest) sep = true.
Proof.
  induction sep as [|p sep IH]; simpl; [done|].
  by rewrite bool_decide_eq_true_2.
Qed.

Lemma startswith_prefix_of data sep :
  startswith data sep = true ↔ sep `prefix_of` data.
Proof.
  revert data. induction sep as [|p sep IH]; intros data; simpl.
  - split; [intros _; apply prefix_nil | done].
  - destruct data as [|d data].
    + split; [done | intros Hp; by apply prefix_nil_not in Hp].
    + rewrite andb_true_iff, bool_decide_eq_true, IH. split.
      * intros [-> Hp]. by apply prefix_cons.
      * intros Hp. split; [by apply prefix_cons_inv_1 in Hp |
                           by apply prefix_cons_inv_2 in Hp].
Qed.

Lemma occurs_at_0 sep data : occurs_at sep data 0 = startswith data sep.
Proof. done. Qed.

Lemma occurs_at_S sep c data k :
  occurs_at sep (c :: data) (S k) = occurs_at sep data k.
Proof. done. Qed.

Lemma occurs_at_app_length sep pre rest :
  occurs_at sep (pre ++ sep ++ rest) (length pre) = true.
Proof.
  unfold occurs_at. rewrite drop_app_length. apply startswith_app.
Qed.

Lemma contains_occurs sep data :
  contains sep data = true ↔ ∃ k, occurs_at sep data k = true.
Proof.
  induction data as [|c data IH]; simpl.
  - rewrite orb_false_r. split.
    + intros Hs. by exists 0.
    + intros [k Hk]. unfold occurs_at in Hk. by rewrite drop_nil in Hk.
  - rewrite orb_true_iff, IH. split.
    + intros [Hs | [k Hk]]; [by exists 0 | by exists (S k)].
    + intros [[|k] Hk]; [by left | right; by exists k].
Qed.

Lemma contains_false sep data :
  contains sep data = false ↔ ∀ k, occurs_at sep data k = false.
Proof.
  rewrite <- not_true_iff_false, contains_occurs. split.
  - intros Hn k. apply not_true_iff_false. intros Hk. apply Hn. by exists k.
  - intros Hall [k Hk]. by rewrite Hall in Hk.
Qed.

Lemma find_first sep data i :
  occurs_at sep data i = true →
  (∀ k, k < i → occurs_at sep data k = false) →
  find sep data = Some i.
Proof.
  revert i. induction data as [|c data IH]; intros i Hi Hfirst; simpl.
  - destruct i as [|i].
    + rewrite occurs_at_0 in Hi. by rewrite Hi.
    + specialize (Hfirst 0 ltac:(lia)). unfold occurs_at in *.
      rewrite drop_nil in Hi. simpl in Hfirst. congruence.
  - destruct i as [|i].
    + rewrite occurs_at_0 in Hi. by rewrite Hi.
    + pose proof (Hfirst 0 ltac:(lia)) as H0. rewrite occurs_at_0 in H0.
      rewrite H0, (IH i); [done | done |].
      intros k Hk. apply (Hfirst (S k)). lia.
Qed.

Lemma find_occurs sep data i :
  find sep data = Some i →
  occurs_at sep data i = true ∧ ∀ k, k < i → occurs_at sep data k = false.
Proof.
  revert i. induction data as [|c data IH]; intros i; simpl.
  - destruct (startswith [] sep) eqn:Hs; [|done].
    intros [= <-]. split; [done | lia].
  - destruct (startswith (c :: data) sep) eqn:Hs.
    + intros [= <-]. split; [done | lia].
    + destruct (find sep data) as [j|] eqn:Hj; [|done].
      intros [= <-]. destruct (IH j eq_refl) as [Hat Hbefore]. split; [done|].
      intros [|k] Hk; [done|]. rewrite occurs_at_S. apply Hbefore. lia.
Qed.

Lemma find_none_contains sep data :
  find sep data = None ↔ contains sep data = false.
Proof.
  induction data as [|c data IH]; simpl.
  - rewrite orb_false_r. by destruct (startswith [] sep).
  - destruct (startswith (c :: data) sep); simpl; [done|].
    rewrite <- IH. by destruct (find sep data).
Qed.

End BytesFacts.

(** ** Checksum codec *)

Section Checksum.

Context `{Externals}.

Implicit Types (data pre mid post : bytes).

Lemma document_body_between pre mid post :
  let data := pre ++ header_separator ++ mid ++ header_separator ++ post in
  (∀ k, k < length pre → occurs_at header_separator data k = false) →
  (∀ k, k < length mid →
        occurs_at header_separator (mid ++ header_separator ++ post) k = false) →
  document_body data = Return mid.
Proof.
  intros data Hpre Hmid. unfold document_body, split.
  rewrite (find_first _ _ (length pre)); [| apply occurs_at_app_length | done].
  subst data. rewrite drop_app_add, drop_app_length.
  rewrite (find_first _ _ (length mid)); [| apply occurs_at_app_length | done].
  simpl. by rewrite take_app_length.
Qed.

(** The same in terms of the scan: the digest is that of the bytes
    between the end of the first separator found and the start of the next
    one found after it. *)
Lemma checksum_of_scan data i j :
  find header_separator data = Some i →
  find header_separator (drop (i + length header_separator) data) = Some j →
  _calculateYamlFileChecksum data
  = Return (encode_utf8 (getStringHash
              (take j (drop (i + length header_separator) data)))).
Proof.
  intros Hfirst Hsecond. unfold _calculateYamlFileChecksum, document_body, split.
  destruct (contains header_separator data) eqn:Hin.
  - by rewrite Hfirst, Hsecond.
  - apply find_none_contains in Hin. congruence.
Qed.

(** C3. When the first separator of the content sits right after [pre]
    and the next one found after it sits right after [mid], the digest is
    the hex digest of [mid] alone, UTF-8 encoded: neither [pre] nor [post]
    enters it. *)
Theorem checksum_covers_body_between_separators pre mid post :
  let data := pre ++ header_separator ++ mid ++ header_separator ++ post in
  (∀ k, k < length pre → occurs_at header_separator data k = false) →
  (∀ k, k < length mid →
        occurs_at header_separator (mid ++ header_separator ++ post) k = false) →
  _calculateYamlFileChecksum data = Return (encode_utf8 (getStringHash mid)).
Proof.
  intros data Hpre Hmid. unfold _calculateYamlFileChecksum.
  assert (contains header_separator data = true) as ->.
  { apply contains_occurs. exists (length pre). apply occurs_at_app_length. }
  simpl negb. cbv iota.
  pose proof (document_body_between pre mid post Hpre Hmid) as Hbody.
  fold data in Hbody. by rewrite Hbody.
Qed.

(** C6. Content in which the separator occurs at no offset makes the
    checksum computation raise the format error, and no digest comes out. *)
Theorem checksum_without_separator_is_malformed data :
  (∀ k, occurs_at header_separator data k = false) →
  _calculateYamlFileChecksum data
    = Raise (ValueError "Malformed yaml data without --- header")
  ∧ ∀ digest, _calculateYamlFileChecksum data ≠ Return digest.
Proof.
  intros Hno. apply contains_false in Hno.
  unfold _calculateYamlFileChecksum. rewrite Hno. simpl. split; [done|].
  intros digest. discriminate.
Qed.

(** C10. A marker line with fewer than three whitespace separated tokens
    makes the extraction raise [IndexError]; the absent result comes out
    exactly when there are fewer than five lines or line 4 does not start
    with the marker. *)
Theorem checksum_extraction_index_error data :
  (∀ line4, splitlines data !! 4 = Some line4 →
            startswith line4 checksum_marker = true →
            length (split_ws line4) < 3 →
            getYamlFileChecksum data = Raise IndexError)
  ∧ (getYamlFileChecksum data = Return None
     ↔ length (splitlines data) < 5
       ∨ ∃ line4, splitlines data !! 4 = Some line4
                  ∧ startswith line4 checksum_marker = false).
Proof.
  unfold getYamlFileChecksum. split.
  - intros line4 -> -> Hlen.
    by rewrite (proj2 (lookup_ge_None (split_ws line4) 2)) by lia.
  - destruct (splitlines data !! 4) as [line4|] eqn:Hline.
    + apply lookup_lt_Some in Hline as Hlt.
      destruct (startswith line4 checksum_marker) eqn:Hm.
      * destruct (split_ws line4 !! 2); (split; [done|]);
          (intros [Hshort | (other & [= <-] & Hother)]; [lia | congruence]).
      * split; [|done]. intros _. right. by exists line4.
    + apply lookup_ge_None in Hline. split; [|done]. intros _. left. lia.
Qed.

End Checksum.

(** ** Ordered dictionaries *)

Section OrderedDictFacts.

Context {V : Type}.

Implicit Types (d : OrderedDict.t V) (key : string) (v : V).

Lemma od_get_None d key :
  OrderedDict.get key d = None ↔ key ∉ OrderedDict.keys d.
Proof.
  unfold OrderedDict.keys. induction d as [|[k w] d IH]; simpl.
  - split; [intros _; apply not_elem_of_nil | done].
  - rewrite not_elem_of_cons. destruct (decide (k = key)) as [->|Hne].
    + split; [done | by intros [? _]].
    + rewrite IH. split; [by intros ? | by intros [_ ?]].
Qed.

Lemma od_contains_true d key :
  OrderedDict.contains key d = true ↔ key ∈ OrderedDict.keys d.
Proof.
  unfold OrderedDict.contains. rewrite bool_decide_eq_true.
  destruct (OrderedDict.get key d) as [v|] eqn:Hget.
  - split; [|by eauto]. intros _.
    destruct (decide (key ∈ OrderedDict.keys d)) as [|Hn]; [done|].
    apply od_get_None in Hn. congruence.
  - apply od_get_None in Hget. split; [by intros [? ?] | done].
Qed.

Lemma od_contains_false d key :
  OrderedDict.contains key d = false ↔ key ∉ OrderedDict.keys d.
Proof. rewrite <- od_contains_true. by destruct (OrderedDict.contains key d). Qed.

Lemma od_set_fresh d key v :
  key ∉ OrderedDict.keys d → OrderedDict.set key v d = d ++ [(key, v)].
Proof.
  unfold OrderedDict.keys. induction d as [|[k w] d IH]; simpl; [done|].
  rewrite not_elem_of_cons. intros [Hne Hnot].
  destruct (decide (k = key)); [congruence|]. by rewrite IH.
Qed.

Lemma od_keys_app d1 d2 :
  OrderedDict.keys (d1 ++ d2) = OrderedDict.keys d1 ++ OrderedDict.keys d2.
Proof. unfold OrderedDict.keys. apply fmap_app. Qed.

Lemma od_get_app d1 d2 key :
  OrderedDict.get key (d1 ++ d2)
  = match OrderedDict.get key d1 with
    | Some v => Some v
    | None => OrderedDict.get key d2
    end.
Proof.
  induction d1 as [|[k w] d1 IH]; simpl; [done|].
  by destruct (decide (k = key)).
Qed.

Lemma od_pop_get d key :
  OrderedDict.get key d = fst <$> OrderedDict.pop key d.
Proof.
  induction d as [|[k w] d IH]; simpl; [done|].
  destruct (decide (k = key)); [done|]. rewrite IH.
  by destruct (OrderedDict.pop key d) as [[? ?]|].
Qed.

End OrderedDictFacts.

(** ** Lookup in a document *)

(** C2. [get] gives the empty tuple for an unknown module and for a
    section the module's entry does not have, a one element tuple around a
    payload that is a single mapping, and any other payload as it is. *)
Theorem get_normalizes_section (self : PackageConfigYaml.t) (m s : string) :
  (m ∉ PackageConfigYaml.keys self →
   PackageConfigYaml.get self m s = PackageConfigYaml.Tuple [])
  ∧ (∀ entry, OrderedDict.get m (PackageConfigYaml.data self) = Some entry →
       (s ∉ OrderedDict.keys entry →
        PackageConfigYaml.get self m s = PackageConfigYaml.Tuple [])
       ∧ (∀ mapping, OrderedDict.get s entry = Some (VDict mapping) →
            PackageConfigYaml.get self m s
            = PackageConfigYaml.Tuple [VDict mapping])
       ∧ (∀ payload, OrderedDict.get s entry = Some payload →
            (∀ mapping, payload ≠ VDict mapping) →
            PackageConfigYaml.get self m s = PackageConfigYaml.Payload payload)).
Proof.
  unfold PackageConfigYaml.get, PackageConfigYaml.keys. split.
  - intros Hm. apply od_get_None in Hm. by rewrite Hm.
  - intros entry ->. split; [|split].
    + intros Hs. apply od_get_None in Hs. by rewrite Hs.
    + by intros mapping ->.
    + intros payload -> Hshape. destruct payload; try done.
      by destruct (Hshape entries).
Qed.

(** ** Document construction *)

Section Construction.

Context `{Externals}.

Implicit Types (self_name : string) (item : value) (items : list value)
  (self_data : OrderedDict.t (OrderedDict.t value)).

(** What a record that goes through has passed. *)
Lemma accept_item_Return self_name self_data item self_data' :
  PackageConfigYaml.accept_item self_name self_data item = Return self_data' →
  ∃ entries s remaining,
    item = VDict entries
    ∧ OrderedDict.pop "module-name" entries = Some (VStr s, remaining)
    ∧ (s ≠ "")
    ∧ (str_contains "/" s = false)
    ∧ (checkModuleName (VStr s) = true)
    ∧ (s ∉ OrderedDict.keys self_data)
    ∧ (self_data' = self_data ++ [(s, remaining)]).
Proof.
  unfold PackageConfigYaml.accept_item. unfold_result.
  destruct item as [| | | |?|entries]; try done.
  destruct (OrderedDict.pop "module-name" entries) as [[module_name remaining]|] eqn:Hpop;
    [|done].
  destruct (truthy module_name) eqn:Htruthy; simpl; [|done].
  destruct module_name as [| | |s|?|?]; simpl; try done.
  - destruct (str_contains "/" s) eqn:Hslash; [done|].
    destruct (checkModuleName (VStr s)) eqn:Hcheck; simpl; [|done].
    destruct (OrderedDict.contains s self_data) eqn:Hdup; [done|].
    intros [= <-]. apply od_contains_false in Hdup.
    exists entries, s, remaining. repeat split; try done.
    + simpl in Htruthy. intros ->. by rewrite bool_decide_eq_true_2 in Htruthy.
    + by apply od_set_fresh.
  - destruct (existsb _ _); [done|]. by destruct (checkModuleName _).
  - destruct (OrderedDict.contains _ _); [done|]. by destruct (checkModuleName _).
Qed.

(** A record whose name is already a key never goes through. *)
Lemma accept_item_known_name self_name self_data entries s :
  OrderedDict.get "module-name" entries = Some (VStr s) →
  s ∈ OrderedDict.keys self_data →
  ∃ e, PackageConfigYaml.accept_item self_name self_data (VDict entries) = Raise e.
Proof.
  intros Hget Hin.
  destruct (PackageConfigYaml.accept_item self_name self_data (VDict entries))
    as [e|self_data'] eqn:Hacc; [by exists e|].
  apply accept_item_Return in Hacc
    as (entries' & s' & remaining & [= <-] & Hpop & _ & _ & _ & Hfresh & _).
  rewrite od_pop_get, Hpop in Hget. simpl in Hget. by simplify_eq.
Qed.

Lemma init_loop_app self_name self_data items1 items2 :
  PackageConfigYaml.init_loop self_name self_data (items1 ++ items2)
  = self_data' ← PackageConfigYaml.init_loop self_name self_data items1;
    PackageConfigYaml.init_loop self_name self_data' items2.
Proof.
  revert self_data. induction items1 as [|item items1 IH]; intros self_data; [done|].
  simpl. unfold_result.
  destruct (PackageConfigYaml.accept_item self_name self_data item); [done|].
  apply IH.
Qed.

Lemma init_loop_known_name self_name self_data items j entries s :
  items !! j = Some (VDict entries) →
  OrderedDict.get "module-name" entries = Some (VStr s) →
  s ∈ OrderedDict.keys self_data →
  ∃ e, PackageConfigYaml.init_loop self_name self_data items = Raise e.
Proof.
  revert self_data j.
  induction items as [|item items IH]; intros self_data j Hj Hget Hin; [done|].
  simpl. destruct j as [|j]; simpl in Hj.
  - simplify_eq.
    destruct (accept_item_known_name self_name self_data entries s Hget Hin)
      as [e ->].
    by exists e.
  - destruct (PackageConfigYaml.accept_item self_name self_data item)
      as [e|self_data'] eqn:Hacc; [by exists e|].
    unfold_result. simpl.
    apply accept_item_Return in Hacc as (? & s' & remaining & _ & _ & _ & _ & _ & _ & ->).
    apply (IH _ j Hj Hget). rewrite od_keys_app, elem_of_app. by left.
Qed.

Lemma init_loop_repeated_name self_name self_data items i j entries1 entries2 v :
  i < j →
  items !! i = Some (VDict entries1) →
  items !! j = Some (VDict entries2) →
  OrderedDict.get "module-name" entries1 = Some v →
  OrderedDict.get "module-name" entries2 = Some v →
  ∃ e, PackageConfigYaml.init_loop self_name self_data items = Raise e.
Proof.
  revert self_data i j.
  induction items as [|item items IH]; intros self_data i j Hij Hi Hj Hv1 Hv2; [done|].
  destruct j as [|j]; [lia|]. simpl in Hj. simpl.
  destruct (PackageConfigYaml.accept_item self_name self_data item)
    as [e|self_data'] eqn:Hacc; [by exists e|].
  unfold_result. simpl.
  destruct i as [|i]; simpl in Hi.
  - simplify_eq.
    apply accept_item_Return in Hacc
      as (? & s & remaining & [= <-] & Hpop & _ & _ & _ & _ & ->).
    rewrite od_pop_get, Hpop in Hv1. simpl in Hv1. simplify_eq.
    apply (init_loop_known_name _ _ _ j entries2 s Hj Hv2).
    rewrite od_keys_app, elem_of_app. right. simpl. apply list_elem_of_here.
  - apply (IH _ i j); [lia | done..].
Qed.

(** Construction keeps the keys of the mapping unique. *)
Lemma init_loop_wf self_name self_data items self_data' :
  OrderedDict.wf self_data →
  PackageConfigYaml.init_loop self_name self_data items = Return self_data' →
  OrderedDict.wf self_data'.
Proof.
  revert self_data. induction items as [|item items IH]; intros self_data Hwf; simpl.
  - by intros [= <-].
  - destruct (PackageConfigYaml.accept_item self_name self_data item)
      as [e|d1] eqn:Hacc; [done|].
    unfold_result. simpl. apply IH.
    apply accept_item_Return in Hacc as (? & s & remaining & _ & _ & _ & _ & _ & Hfresh & ->).
    unfold OrderedDict.wf. rewrite od_keys_app. apply NoDup_app.
    split; [done|]. split; [|apply NoDup_singleton].
    intros k Hk. simpl. rewrite list_elem_of_singleton. by intros ->.
Qed.

Lemma init_wf name data self :
  PackageConfigYaml.__init__ name data = Return self →
  OrderedDict.wf (PackageConfigYaml.data self).
Proof.
  unfold PackageConfigYaml.__init__. destruct data; try done.
  destruct (PackageConfigYaml.init_loop name [] items) as [e|d] eqn:Hloop; [done|].
  unfold_result. simpl. intros [= <-]. simpl.
  apply (init_loop_wf name [] items); [apply NoDup_nil_2 | done].
Qed.

End Construction.

(** ** Merging documents *)

Section Merge.

Implicit Types (self_data : OrderedDict.t (OrderedDict.t value))
  (other_items : list (string * OrderedDict.t value)).

Lemma update_loop_disjoint self_data other_items :
  OrderedDict.wf other_items →
  (∀ key, key ∈ OrderedDict.keys self_data → key ∉ OrderedDict.keys other_items) →
  PackageConfigYaml.update_loop self_data other_items
  = (self_data ++ other_items, None).
Proof.
  revert self_data.
  induction other_items as [|[key entry] rest IH]; intros self_data Hwf Hdisj; simpl.
  - by rewrite app_nil_r.
  - apply NoDup_cons in Hwf as [Hfresh Hwf].
    assert (key ∉ OrderedDict.keys self_data) as Hnew.
    { intros Hin. apply (Hdisj key Hin). apply list_elem_of_here. }
    rewrite (proj2 (od_contains_false self_data key) Hnew).
    rewrite (od_set_fresh _ _ _ Hnew), IH; [by rewrite <- app_assoc | done |].
    intros k. rewrite od_keys_app, elem_of_app. simpl.
    rewrite list_elem_of_singleton. intros [Hk | ->]; [|done].
    intros Hrest. apply (Hdisj k Hk). by apply list_elem_of_further.
Qed.

Lemma update_loop_shared self_data other_items key :
  key ∈ OrderedDict.keys self_data →
  key ∈ OrderedDict.keys other_items →
  ∃ self_data' culprit,
    PackageConfigYaml.update_loop self_data other_items
    = (self_data', Some (AssertionError culprit)).
Proof.
  revert self_data.
  induction other_items as [|[k entry] rest IH]; intros self_data Hself Hother.
  - by apply elem_of_nil in Hother.
  - simpl. destruct (OrderedDict.contains k self_data) eqn:Hk; [by eauto|].
    apply od_contains_false in Hk. apply IH.
    + rewrite (od_set_fresh _ _ _ Hk), od_keys_app, elem_of_app. by left.
    + simpl in Hother. apply elem_of_cons in Hother as [->|]; [done | done].
Qed.

End Merge.

(** C1. A module name that is already a key stops construction and
    merging: a record whose (otherwise acceptable) name is a key of the
    document under construction exits with the duplicate message; a list of
    records in which two records carry the same module name never yields a
    document; merging documents that share a name fails its assertion;
    merging documents with disjoint names succeeds and the aggregate holds
    the entries of both, those of [self] first. *)
Theorem duplicate_module_name_aborts `{Externals} :
  (∀ self_name self_data entries s remaining,
     OrderedDict.pop "module-name" entries = Some (VStr s, remaining) →
     s ≠ "" → str_contains "/" s = false → checkModuleName (VStr s) = true →
     s ∈ OrderedDict.keys self_data →
     PackageConfigYaml.accept_item self_name self_data (VDict entries)
     = Raise (SystemExit (duplicate_message s)))
  ∧ (∀ name items i j entries1 entries2 v,
       i < j →
       items !! i = Some (VDict entries1) →
       items !! j = Some (VDict entries2) →
       OrderedDict.get "module-name" entries1 = Some v →
       OrderedDict.get "module-name" entries2 = Some v →
       ∃ e, PackageConfigYaml.__init__ name (VList items) = Raise e)
  ∧ (∀ self other key,
       key ∈ PackageConfigYaml.keys self →
       key ∈ PackageConfigYaml.keys other →
       ∃ self' culprit,
         PackageConfigYaml.update self other
         = (self', Some (AssertionError culprit)))
  ∧ (∀ self other,
       OrderedDict.wf (PackageConfigYaml.data other) →
       (∀ key, key ∈ PackageConfigYaml.keys self →
               key ∉ PackageConfigYaml.keys other) →
       ∃ self',
         PackageConfigYaml.update self other = (self', None)
         ∧ PackageConfigYaml.name self' = PackageConfigYaml.name self
         ∧ PackageConfigYaml.items self'
           = PackageConfigYaml.items self ++ PackageConfigYaml.items other
         ∧ ∀ key entry,
             OrderedDict.get key (PackageConfigYaml.data self') = Some entry
             ↔ OrderedDict.get key (PackageConfigYaml.data self) = Some entry
               ∨ OrderedDict.get key (PackageConfigYaml.data other) = Some entry).
Proof.
  split; [|split; [|split]].
  - intros self_name self_data entries s remaining Hpop Hne Hslash Hcheck Hin.
    unfold PackageConfigYaml.accept_item. rewrite Hpop. simpl.
    rewrite bool_decide_eq_false_2 by done. simpl.
    unfold mbind, result_bind, rbind. simpl. rewrite Hslash, Hcheck. simpl.
    by rewrite (proj2 (od_contains_true self_data s) Hin).
  - intros name items i j entries1 entries2 v Hij Hi Hj Hv1 Hv2.
    destruct (init_loop_repeated_name name [] items i j entries1 entries2 v
                Hij Hi Hj Hv1 Hv2) as [e He].
    exists e. unfold PackageConfigYaml.__init__. by rewrite He.
  - intros self other key Hself Hother. unfold PackageConfigYaml.update.
    destruct (update_loop_shared (PackageConfigYaml.data self)
                (PackageConfigYaml.items other) key Hself Hother)
      as (self_data' & culprit & ->).
    by eauto.
  - intros self other Hwf Hdisj.
    unfold PackageConfigYaml.update, PackageConfigYaml.items,
      PackageConfigYaml.keys in *.
    rewrite (update_loop_disjoint _ _ Hwf Hdisj).
    eexists. split; [done|]. split; [done|]. split; [done|].
    intros key entry. simpl. rewrite od_get_app.
    destruct (OrderedDict.get key (PackageConfigYaml.data self)) as [e|] eqn:Hget.
    + split; [by left|]. intros [|Hother]; [done|]. exfalso.
      apply (Hdisj key).
      * destruct (decide (key ∈ OrderedDict.keys (PackageConfigYaml.data self)))
          as [|Hn]; [done|].
        apply od_get_None in Hn. congruence.
      * destruct (decide (key ∈ OrderedDict.keys (PackageConfigYaml.data other)))
          as [|Hn]; [done|].
        apply od_get_None in Hn. congruence.
    + split; [by right | by intros [|]].
Qed.

(** C4 as the code has it. A record is taken through the presence step,
    the empty-name check, the path separator check, the syntax check and
    the duplicate check in that order, each failure hiding the later ones,
    and the first record that fails decides the outcome of the whole
    construction. A name that is present but empty exits with the message
    naming the document; a record without the key fails the presence step
    with [KeyError]. *)
Theorem construction_checks_in_order `{Externals} (self_name : string)
    (self_data : OrderedDict.t (OrderedDict.t value))
    (entries : OrderedDict.t value) :
  let outcome := PackageConfigYaml.accept_item self_name self_data (VDict entries) in
  ("module-name" ∉ OrderedDict.keys entries →
   outcome = Raise (KeyError "module-name"))
  ∧ (∀ module_name, OrderedDict.get "module-name" entries = Some module_name →
       truthy module_name = false →
       outcome = Raise (SystemExit (empty_name_message self_name)))
  ∧ (∀ s remaining,
       OrderedDict.pop "module-name" entries = Some (VStr s, remaining) →
       s ≠ "" →
       (str_contains "/" s = true →
        outcome = Raise (SystemExit (file_path_message self_name s)))
       ∧ (str_contains "/" s = false → checkModuleName (VStr s) = false →
          outcome = Raise (SystemExit (not_valid_message self_name s)))
       ∧ (str_contains "/" s = false → checkModuleName (VStr s) = true →
          s ∈ OrderedDict.keys self_data →
          outcome = Raise (SystemExit (duplicate_message s)))
       ∧ (str_contains "/" s = false → checkModuleName (VStr s) = true →
          s ∉ OrderedDict.keys self_data →
          outcome = Return (self_data ++ [(s, remaining)])))
  ∧ (∀ before after accepted e,
       PackageConfigYaml.init_loop self_name [] before = Return accepted →
       PackageConfigYaml.accept_item self_name accepted (VDict entries) = Raise e →
       PackageConfigYaml.__init__ self_name
         (VList (before ++ VDict entries :: after)) = Raise e).
Proof.
  intros outcome. subst outcome.
  split; [|split; [|split]].
  - intros Hkey. apply od_get_None in Hkey. rewrite od_pop_get in Hkey.
    unfold PackageConfigYaml.accept_item.
    by destruct (OrderedDict.pop "module-name" entries).
  - intros module_name Hget Hfalsy. rewrite od_pop_get in Hget.
    unfold PackageConfigYaml.accept_item.
    destruct (OrderedDict.pop "module-name" entries) as [[v remaining]|]; [|done].
    simpl in Hget. simplify_eq. by rewrite Hfalsy.
  - intros s remaining Hpop Hne.
    unfold PackageConfigYaml.accept_item. rewrite Hpop. simpl.
    rewrite bool_decide_eq_false_2 by done. simpl.
    unfold mbind, result_bind, rbind. simpl.
    split; [|split; [|split]].
    + by intros ->.
    + by intros -> ->.
    + intros -> -> Hin. simpl.
      by rewrite (proj2 (od_contains_true self_data s) Hin).
    + intros -> -> Hfresh. simpl.
      rewrite (proj2 (od_contains_false self_data s) Hfresh).
      by rewrite od_set_fresh.
  - intros before after accepted e Hbefore Hfail.
    unfold PackageConfigYaml.__init__. rewrite init_loop_app, Hbefore.
    cbn [PackageConfigYaml.init_loop]. unfold_result. by rewrite Hfail.
Qed.

(** ** Lines and tokens *)

Section LinesFacts.

Implicit Types (cur data line rest token : bytes) (lines : list bytes).

Lemma splitlines_from_line cur line rest :
  no_linebreak line →
  splitlines_from cur (line ++ x0a :: rest) = (cur ++ line) :: splitlines_from [] rest.
Proof.
  revert cur. induction line as [|c line IH]; intros cur Hline; simpl.
  - by rewrite app_nil_r.
  - apply Forall_cons in Hline as [Hc Hline].
    apply orb_false_iff in Hc as [-> ->].
    rewrite (IH _ Hline). by rewrite <- app_assoc.
Qed.

Lemma join_cons sep line lines :
  lines ≠ [] → join sep (line :: lines) = line ++ sep ++ join sep lines.
Proof. by destruct lines. Qed.

(** Joining lines with LF and closing with LF is undone by [splitlines]. *)
Lemma splitlines_join lines :
  lines ≠ [] →
  Forall no_linebreak lines →
  splitlines (join [x0a] lines ++ [x0a]) = lines.
Proof.
  unfold splitlines. induction lines as [|line lines IH]; [done|].
  intros _ Hall. apply Forall_cons in Hall as [Hline Hall].
  destruct lines as [|line' lines].
  - simpl join. by rewrite (splitlines_from_line [] line [] Hline).
  - rewrite join_cons by done. rewrite <- !app_assoc. simpl app at 2.
    rewrite (splitlines_from_line [] line _ Hline). simpl app at 1.
    f_equal. by apply IH.
Qed.

Lemma splitlines_from_no_linebreak n cur data :
  length data ≤ n →
  no_linebreak cur →
  Forall no_linebreak (splitlines_from cur data).
Proof.
  revert cur data. induction n as [|n IH]; intros cur data Hlen Hcur.
  - destruct data; [|simpl in Hlen; lia]. simpl.
    destruct cur; [apply Forall_nil_2 | by apply Forall_singleton].
  - destruct data as [|c rest]; simpl.
    { destruct cur; [apply Forall_nil_2 | by apply Forall_singleton]. }
    simpl in Hlen.
    destruct (bool_decide (c = x0a)) eqn:Hlf.
    { apply Forall_cons. split; [done|]. apply IH; [lia | apply Forall_nil_2]. }
    destruct (bool_decide (c = x0d)) eqn:Hcr.
    + destruct rest as [|c' rest'].
      { apply Forall_cons. split; [done | apply Forall_nil_2]. }
      simpl in Hlen. destruct (bool_decide (c' = x0a));
        (apply Forall_cons; split; [done|]);
        (apply IH; [simpl; lia | apply Forall_nil_2]).
    + apply IH; [lia|]. apply Forall_app. split; [done|].
      apply Forall_singleton. unfold is_linebreak. by rewrite Hlf, Hcr.
Qed.

Lemma splitlines_no_linebreak data : Forall no_linebreak (splitlines data).
Proof.
  apply (splitlines_from_no_linebreak (length data)); [done | apply Forall_nil_2].
Qed.

Lemma token_no_linebreak token : is_token token → no_linebreak token.
Proof.
  intros [_ Hall]. eapply Forall_impl; [exact Hall|].
  intros c Hc. unfold isspace in Hc. unfold is_linebreak.
  apply orb_false_iff in Hc as [Hc _]. apply orb_false_iff in Hc as [Hc _].
  apply orb_false_iff in Hc as [Hc Hcr]. apply orb_false_iff in Hc as [_ Hlf].
  by rewrite Hlf, Hcr.
Qed.

End LinesFacts.

Section TokenFacts.

Implicit Types (cur data line token digest : bytes).

Lemma split_ws_from_token cur token :
  Forall (λ c, isspace c = false) token →
  cur ++ token ≠ [] →
  split_ws_from cur token = [cur ++ token].
Proof.
  revert cur. induction token as [|c token IH]; intros cur Hall Hne; simpl.
  - rewrite app_nil_r in *. by destruct cur.
  - apply Forall_cons in Hall as [-> Hall].
    rewrite IH; [by rewrite <- app_assoc | done |].
    rewrite <- app_assoc. by destruct cur.
Qed.

Lemma split_ws_checksum_line digest :
  is_token digest →
  split_ws (b "# checksum: " ++ digest) = [b "#"; b "checksum:"; digest].
Proof.
  intros [Hne Hall]. unfold split_ws.
  set (marker := b "# checksum: "). vm_compute in marker. subst marker.
  cbn -[split_ws_from]. simpl.
  rewrite split_ws_from_token; [done | done | by destruct digest].
Qed.

(** The reader finds the digest on a line the tool has written. *)
Lemma getYamlFileChecksum_written data digest :
  is_token digest →
  splitlines data !! 4 = Some (b "# checksum: " ++ digest) →
  getYamlFileChecksum data = Return (Some digest).
Proof.
  intros Htoken Hline. unfold getYamlFileChecksum. cbv zeta. rewrite Hline.
  unfold checksum_marker. rewrite startswith_app.
  by rewrite split_ws_checksum_line.
Qed.

End TokenFacts.

(** ** Checksum maintenance tool *)

Section Tool.

Context `{Externals}.

Implicit Types (s : state) (old new line digest : bytes) (filename : string).

Lemma checkOrUpdateChecksum_eval s filename update old line digest :
  files s !! filename = Some old →
  splitlines old !! 4 = Some line →
  startswith line checksum_marker_tool = true →
  _calculateYamlFileChecksum old = Return digest →
  checkOrUpdateChecksum filename update s
  = if bool_decide (rewritten old digest ≠ old) then
      if update then
        (Return (), add_info "OK, updated checksum."
                      (set_files <[filename := rewritten old digest]> s))
      else
        (Raise (SystemExit
           "Error, checksum does not match, use --update or enable commit hook."), s)
    else (Return (), add_info "OK, checksum valid." s).
Proof.
  intros Hfile Hline Hmarker Hdigest.
  unfold checkOrUpdateChecksum, getFileContents, writeFile. unfold_M.
  cbv zeta. rewrite Hfile. cbv beta iota zeta. rewrite Hline, Hmarker, Hdigest.
  cbn [negb]. cbv beta iota. fold (rewritten old digest).
  destruct (bool_decide (rewritten old digest ≠ old)); [|done].
  by destruct update.
Qed.

Lemma splitlines_rewritten old line digest :
  splitlines old !! 4 = Some line →
  no_linebreak digest →
  splitlines (rewritten old digest)
  = <[4 := b "# checksum: " ++ digest]> (splitlines old).
Proof.
  intros Hline Hdigest. unfold rewritten. apply splitlines_join.
  - intros Hnil. apply (f_equal length) in Hnil.
    rewrite length_insert in Hnil. apply lookup_lt_Some in Hline.
    simpl in Hnil. lia.
  - apply Forall_insert; [apply splitlines_no_linebreak|].
    apply Forall_app. split; [|done].
    set (marker := b "# checksum: "). vm_compute in marker. subst marker.
    repeat (apply Forall_cons; split; [done|]). apply Forall_nil_2.
Qed.

Lemma join_head sep line lines :
  join sep (line :: lines) = line ++ concat ((λ l, sep ++ l) <$> lines).
Proof.
  revert line. induction lines as [|next lines IH]; intros line.
  - simpl. by rewrite app_nil_r.
  - rewrite join_cons by done. rewrite IH. simpl. by rewrite <- app_assoc.
Qed.

Lemma join_middle sep before line after :
  join sep (before ++ line :: after) ++ sep
  = concat ((λ l, l ++ sep) <$> before) ++ line
    ++ (concat ((λ l, sep ++ l) <$> after) ++ sep).
Proof.
  induction before as [|first before IH].
  - change ([] ++ line :: after) with (line :: after).
    rewrite join_head. simpl. by rewrite <- app_assoc.
  - change ((first :: before) ++ line :: after)
      with (first :: (before ++ line :: after)).
    rewrite join_cons by (by destruct before).
    rewrite <- !app_assoc, IH. simpl. by rewrite <- !app_assoc.
Qed.

(** An LF-joined file is what comes before line [i], that line, and what
    comes after it. *)
Lemma join_around (lines : list bytes) i line :
  lines !! i = Some line →
  join [x0a] lines ++ [x0a] = before_line i lines ++ line ++ after_line i lines.
Proof.
  intros Hline. rewrite <- (take_drop_middle lines i line Hline) at 1.
  apply join_middle.
Qed.

Lemma rewritten_around old line digest :
  splitlines old !! 4 = Some line →
  rewritten old digest
  = before_line 4 (splitlines old) ++ (b "# checksum: " ++ digest)
    ++ after_line 4 (splitlines old).
Proof.
  intros Hline. unfold rewritten.
  rewrite insert_take_drop by (by apply lookup_lt_Some in Hline).
  apply join_middle.
Qed.

(** C8 as the code has it. A file with at least five lines, the marker on
    line 4 and a stored checksum that is not the digest computed from the
    file: with [update] the file is rewritten as its lines joined with line
    feeds and closed with a line feed, line 4 being the marker followed by
    the new digest; every other line keeps its content, and the bytes around
    line 4 are those of the old file exactly when the old file was already
    its lines joined and closed with line feeds; without [update] the tool
    exits with the mismatch message and nothing is written. *)
Theorem stale_checksum_rewrite_joins_lines_with_LF s filename old line digest :
  files s !! filename = Some old →
  splitlines old !! 4 = Some line →
  startswith line checksum_marker_tool = true →
  _calculateYamlFileChecksum old = Return digest →
  is_token digest →
  getYamlFileChecksum old ≠ Return (Some digest) →
  (∃ new,
     checkOrUpdateChecksum filename true s
     = (Return (), add_info "OK, updated checksum."
                     (set_files <[filename := new]> s))
     ∧ length (splitlines new) = length (splitlines old)
     ∧ splitlines new !! 4 = Some (b "# checksum: " ++ digest)
     ∧ (∀ i, i ≠ 4 → splitlines new !! i = splitlines old !! i)
     ∧ new = before_line 4 (splitlines old) ++ (b "# checksum: " ++ digest)
             ++ after_line 4 (splitlines old)
     ∧ (old = before_line 4 (splitlines old) ++ line
              ++ after_line 4 (splitlines old)
        ↔ old = join [x0a] (splitlines old) ++ [x0a]))
  ∧ checkOrUpdateChecksum filename false s
    = (Raise (SystemExit
         "Error, checksum does not match, use --update or enable commit hook."), s).
Proof.
  intros Hfile Hline Hmarker Hdigest Htoken Hstale.
  pose proof (splitlines_rewritten old line digest Hline
                (token_no_linebreak _ Htoken)) as Hlines.
  assert (rewritten old digest ≠ old) as Hdiff.
  { intros Heq. apply Hstale. apply getYamlFileChecksum_written; [done|].
    rewrite <- Heq at 1. rewrite Hlines. apply list_lookup_insert_eq.
    by apply lookup_lt_Some in Hline. }
  rewrite !(checkOrUpdateChecksum_eval s filename _ old line digest) by done.
  rewrite bool_decide_eq_true_2 by done. split; [|done].
  exists (rewritten old digest). split; [done|]. rewrite Hlines.
  split; [apply length_insert|]. split; [|split; [|split]].
  - apply list_lookup_insert_eq. by apply lookup_lt_Some in Hline.
  - intros i Hi. by apply list_lookup_insert_ne.
  - by apply (rewritten_around old line).
  - by rewrite <- (join_around (splitlines old) 4 line Hline).
Qed.

(** C9. The verdict comes from comparing the whole reassembled content
    with the file, byte for byte: the tool says valid exactly when the two
    are equal, and a file whose stored digest is already the computed one
    but whose bytes differ from the reassembled content is a mismatch,
    fatal without [update] and rewritten as a whole with it. *)
Theorem verdict_compares_whole_file s filename old line digest :
  files s !! filename = Some old →
  splitlines old !! 4 = Some line →
  startswith line checksum_marker_tool = true →
  _calculateYamlFileChecksum old = Return digest →
  (∀ update,
     checkOrUpdateChecksum filename update s
     = (Return (), add_info "OK, checksum valid." s)
     ↔ old = rewritten old digest)
  ∧ (getYamlFileChecksum old = Return (Some digest) →
     old ≠ rewritten old digest →
     checkOrUpdateChecksum filename false s
     = (Raise (SystemExit
          "Error, checksum does not match, use --update or enable commit hook."), s)
     ∧ checkOrUpdateChecksum filename true s
       = (Return (), add_info "OK, updated checksum."
                       (set_files <[filename := rewritten old digest]> s))).
Proof.
  intros Hfile Hline Hmarker Hdigest. split.
  - intros update.
    rewrite (checkOrUpdateChecksum_eval s filename update old line digest) by done.
    case_bool_decide as Hcmp.
    + split; [|by intros Heq; destruct Hcmp].
      destruct update; [|done]. intros Hstate. exfalso.
      apply (f_equal (λ outcome, infos outcome.2)) in Hstate. simpl in Hstate.
      by apply app_inv_head in Hstate.
    + split; [by intros _ | done].
  - intros _ Hne.
    rewrite !(checkOrUpdateChecksum_eval s filename _ old line digest) by done.
    rewrite bool_decide_eq_true_2; [done | by intros Heq].
Qed.

End Tool.

(** ** Config loader *)

Section Loader.

Context `{Externals}.

Implicit Types (s : state) (data line token digest : bytes)
  (package_name filename validated : string).

Lemma split_lookup_1 sep data :
  contains sep data = true → is_Some (split sep 2 data !! 1).
Proof.
  intros Hin. simpl. destruct (find sep data) as [i|] eqn:Hfind.
  - simpl. by destruct (find sep (drop (i + length sep) data)).
  - apply find_none_contains in Hfind. congruence.
Qed.

(** With a separator in the content the checksum computation returns. *)
Lemma checksum_defined data :
  contains header_separator data = true →
  ∃ digest, _calculateYamlFileChecksum data = Return digest.
Proof.
  intros Hin. unfold _calculateYamlFileChecksum, document_body. rewrite Hin.
  destruct (split_lookup_1 _ _ Hin) as [body ->]. by eexists.
Qed.

Lemma parsePackageYaml_hit s package_name filename r :
  _yaml_cache s !! (package_name, filename) = Some r →
  parsePackageYaml package_name filename s = (Return r, s).
Proof.
  intros Hcache. unfold parsePackageYaml. unfold_M. cbv zeta. rewrite Hcache.
  rewrite bool_decide_eq_false_2 by done. cbv beta iota. by rewrite Hcache.
Qed.

Lemma parsePackageYaml_miss s package_name filename data validated :
  _yaml_cache s !! (package_name, filename) = None →
  pkgutil_get_data package_name filename = Some data →
  classify_checksum data = Return validated →
  parsePackageYaml package_name filename s
  = parse_construct_cache package_name filename data
      (if bool_decide (validated = "matching") then s
       else add_warning (checksum_warning filename validated) s).
Proof.
  intros Hcache Hdata Hclass.
  unfold parsePackageYaml, load_resource, parse_construct_cache. unfold_M.
  cbv zeta. rewrite Hcache, Hdata, Hclass. cbn [bool_decide decide_rel].
  rewrite bool_decide_eq_true_2 by done. cbv beta iota.
  destruct (bool_decide_reflect (validated = "matching")) as [->|Hother].
  - rewrite bool_decide_eq_false_2 by (by intros ?). cbv beta iota.
    destruct (parseYaml data) as [e|parsed]; [done|].
    by destruct (PackageConfigYaml.__init__ filename parsed).
  - rewrite bool_decide_eq_true_2 by done. cbv beta iota.
    destruct (parseYaml data) as [e|parsed]; [done|].
    by destruct (PackageConfigYaml.__init__ filename parsed).
Qed.

Lemma parsePackageYaml_no_resource s package_name filename :
  _yaml_cache s !! (package_name, filename) = None →
  pkgutil_get_data package_name filename = None →
  parsePackageYaml package_name filename s
  = (Raise (IOError ("Cannot find " +:+ package_name +:+ "." +:+ filename)), s).
Proof.
  intros Hcache Hdata. unfold parsePackageYaml, load_resource. unfold_M.
  cbv zeta. rewrite Hcache, Hdata. by rewrite bool_decide_eq_true_2.
Qed.

Lemma parsePackageYaml_unclassified s package_name filename data e :
  _yaml_cache s !! (package_name, filename) = None →
  pkgutil_get_data package_name filename = Some data →
  classify_checksum data = Raise e →
  parsePackageYaml package_name filename s = (Raise e, s).
Proof.
  intros Hcache Hdata Hclass. unfold parsePackageYaml, load_resource. unfold_M.
  cbv zeta. rewrite Hcache, Hdata, Hclass. by rewrite bool_decide_eq_true_2.
Qed.

Lemma classify_checksum_values data validated :
  classify_checksum data = Return validated →
  validated ∈ ["matching"; "not matching"; "not present"].
Proof.
  unfold classify_checksum. cbv zeta. unfold_result.
  destruct (splitlines data !! 4) as [line|]; [|intros [= <-]; set_solver].
  destruct (startswith line checksum_marker); [|intros [= <-]; set_solver].
  destruct (split_ws line !! 2) as [token|]; [|done].
  destruct (_calculateYamlFileChecksum data) as [e|digest]; [done|].
  case_bool_decide; intros [= <-]; set_solver.
Qed.

(** C5 as the code has it. On a cache miss for a resource that exists:
    content with fewer than five lines or without the marker on line 4 is
    classified not present; a marker line with a digest token in content
    that has the separator is classified matching or not matching by
    comparing the token with the computed digest; whenever the
    classification comes out it is one of the three, a warning is logged
    unless it is matching, and the load goes on to parse, construct and
    cache; a marker line with a token in content without the separator
    makes the checksum computation raise, and the load ends there. *)
Theorem checksum_classification_of_load s package_name filename data :
  _yaml_cache s !! (package_name, filename) = None →
  pkgutil_get_data package_name filename = Some data →
  (length (splitlines data) < 5
   ∨ (∃ line, splitlines data !! 4 = Some line
              ∧ startswith line checksum_marker = false) →
   classify_checksum data = Return "not present")
  ∧ (∀ line token,
       splitlines data !! 4 = Some line →
       startswith line checksum_marker = true →
       split_ws line !! 2 = Some token →
       contains header_separator data = true →
       ∃ digest,
         _calculateYamlFileChecksum data = Return digest
         ∧ classify_checksum data
           = Return (if bool_decide (token = digest) then "matching"
                     else "not matching"))
  ∧ (∀ validated,
       classify_checksum data = Return validated →
       validated ∈ ["matching"; "not matching"; "not present"]
       ∧ parsePackageYaml package_name filename s
         = parse_construct_cache package_name filename data
             (if bool_decide (validated = "matching") then s
              else add_warning (checksum_warning filename validated) s))
  ∧ (∀ line token,
       splitlines data !! 4 = Some line →
       startswith line checksum_marker = true →
       split_ws line !! 2 = Some token →
       contains header_separator data = false →
       parsePackageYaml package_name filename s
       = (Raise (ValueError "Malformed yaml data without --- header"), s)).
Proof.
  intros Hcache Hdata. split; [|split; [|split]].
  - unfold classify_checksum. cbv zeta.
    intros [Hshort | (line & -> & ->)]; [|done].
    by rewrite (proj2 (lookup_ge_None (splitlines data) 4)) by lia.
  - intros line token Hline Hmarker Htoken Hsep.
    destruct (checksum_defined data Hsep) as [digest Hdigest].
    exists digest. split; [done|].
    unfold classify_checksum. cbv zeta.
    rewrite Hline, Hmarker, Htoken, Hdigest. unfold_result.
    by repeat case_bool_decide.
  - intros validated Hclass. split; [by eapply classify_checksum_values|].
    by apply parsePackageYaml_miss.
  - intros line token Hline Hmarker Htoken Hsep.
    unfold parsePackageYaml, load_resource, classify_checksum,
      _calculateYamlFileChecksum.
    unfold_M. cbv zeta.
    rewrite Hcache, Hdata, Hline, Hmarker, Htoken, Hsep.
    by rewrite bool_decide_eq_true_2.
Qed.

End Loader.

(** ** Cache and singleton *)

Section KeepsRules.

Context {A B : Type} (P : state → Prop).

Lemma keeps_ret (x : A) : keeps P (mret x).
Proof. intros s outcome s' HP [= <- <-] _. done. Qed.

Lemma keeps_raise (e : exn) : keeps P (raise e : M A).
Proof. intros s outcome s' HP [= <- <-] _. done. Qed.

Lemma keeps_lift (r : result A) : keeps P (lift r).
Proof. intros s outcome s' HP [= <- <-] _. done. Qed.

Lemma keeps_gets (f : state → A) : keeps P (gets f).
Proof. intros s outcome s' HP [= <- <-] _. done. Qed.

Lemma keeps_modify (f : state → state) :
  (∀ s, P s → P (f s)) → keeps P (modify f).
Proof. intros Hf s outcome s' HP [= <- <-] _. by apply Hf. Qed.

Lemma keeps_bind (m : M A) (k : A → M B) :
  keeps P m → (∀ x, keeps P (k x)) → keeps P (m ≫= k).
Proof.
  intros Hm Hk s outcome s' HP Hrun Hout. unfold mbind, M_bind in Hrun.
  destruct (m s) as [[e|x] s1] eqn:Hms.
  - simplify_eq. by apply (Hm s (inl e) s').
  - apply (Hk x s1 outcome s'); [|done..]. by apply (Hm s (inr x) s1).
Qed.

End KeepsRules.

Section KeepsSources.

Context `{Externals} (P : state → Prop).

Hypothesis P_objects : ∀ f s, P s → P (set_objects f s).
Hypothesis P_user_parse : ∀ filename s,
  P s → P (add_parse_call (ParsedUserFile filename) s).
Hypothesis P_parsePackageYaml : ∀ package_name filename,
  keeps P (parsePackageYaml package_name filename).

Lemma keeps_new (doc : PackageConfigYaml.t) : keeps P (new doc).
Proof. intros s outcome s' HP [= <- <-] _. by apply P_objects. Qed.

Lemma keeps_update (self other : ref) : keeps P (update self other).
Proof.
  intros s outcome s' HP Hrun _. unfold update in Hrun.
  repeat case_match; simplify_eq; try done; by apply P_objects.
Qed.

Lemma keeps_getFileContents (filename : string) : keeps P (getFileContents filename).
Proof.
  apply keeps_bind; [apply keeps_gets|].
  intros [data|]; [apply keeps_ret | apply keeps_raise].
Qed.

Lemma keeps_except_IOError (m : M unit) : keeps P m → keeps P (except_IOError m).
Proof.
  intros Hm s outcome s' HP Hrun Hout. unfold except_IOError in Hrun.
  destruct (m s) as [[e|x] s1] eqn:Hms.
  - destruct e; simplify_eq; try done. by apply (Hm s (inl (IOError msg)) s').
  - simplify_eq. by apply (Hm s (inr x) s').
Qed.

Lemma keeps_package_config_update (other : M ref) :
  keeps P other → keeps P (package_config_update other).
Proof.
  intros Hother. apply keeps_bind; [apply keeps_gets|].
  intros [self|]; [|apply keeps_raise].
  apply keeps_bind; [done|]. intros other_ref. apply keeps_update.
Qed.

Lemma keeps_merge_user_files (filenames : list string) :
  keeps P (merge_user_files filenames).
Proof.
  induction filenames as [|filename filenames IH]; [apply keeps_ret|].
  simpl. apply keeps_bind; [|by intros _].
  apply keeps_package_config_update.
  apply keeps_bind; [apply keeps_getFileContents|]. intros data.
  apply keeps_bind; [apply keeps_modify, P_user_parse|]. intros _.
  apply keeps_bind; [apply keeps_lift|]. intros parsed.
  apply keeps_bind; [apply keeps_lift|]. intros doc.
  apply keeps_new.
Qed.

Lemma keeps_merge_further_sources : keeps P merge_further_sources.
Proof.
  unfold merge_further_sources.
  apply keeps_bind; [by apply keeps_package_config_update|]. intros _.
  apply keeps_bind; [by apply keeps_package_config_update|]. intros _.
  apply keeps_bind;
    [by apply keeps_except_IOError, keeps_package_config_update|]. intros _.
  apply keeps_merge_user_files.
Qed.

End KeepsSources.

Section Singleton.

Context `{Externals}.

Implicit Types (s : state) (package_name filename : string) (r : ref).

Lemma accept_item_not_IOError self_name self_data item msg :
  PackageConfigYaml.accept_item self_name self_data item ≠ Raise (IOError msg).
Proof.
  unfold PackageConfigYaml.accept_item, slash_in. unfold_result.
  repeat case_match; simplify_eq; done.
Qed.

Lemma init_not_IOError name data msg :
  PackageConfigYaml.__init__ name data ≠ Raise (IOError msg).
Proof.
  unfold PackageConfigYaml.__init__. destruct data as [| | | |items|]; try done.
  assert (∀ self_data,
    PackageConfigYaml.init_loop name self_data items ≠ Raise (IOError msg)) as Hloop.
  { induction items as [|item items IH]; intros self_data; [done|]. simpl.
    destruct (PackageConfigYaml.accept_item name self_data item) as [e|d] eqn:Hacc.
    - unfold_result. intros [= ->]. by apply accept_item_not_IOError in Hacc.
    - apply IH. }
  specialize (Hloop []). unfold_result.
  destruct (PackageConfigYaml.init_loop name [] items) as [e|d]; [|done].
  intros [= ->]. by apply Hloop.
Qed.

(** What a load that returns leaves in the cache. *)
Lemma parsePackageYaml_Return s package_name filename r s' :
  parsePackageYaml package_name filename s = (Return r, s') →
  _yaml_cache s' !! (package_name, filename) = Some r.
Proof.
  unfold parsePackageYaml. unfold_M. cbv zeta.
  match goal with
  | |- context [let (_, _) := ?populate in _] =>
      destruct populate as [[e|[]] s1]
  end; [intros ?; simplify_eq|].
  destruct (_yaml_cache s1 !! (package_name, filename)) as [r1|] eqn:Hentry;
    cbv beta.
  - by intros [= <- <-].
  - intros ?; simplify_eq.
Qed.

Lemma parsePackageYaml_keeps_config package_name filename (c : option ref) :
  keeps (λ s, _package_config s = c) (parsePackageYaml package_name filename).
Proof.
  intros s outcome s' HP Hrun _.
  unfold parsePackageYaml, load_resource, new in Hrun. unfold_M. cbv zeta in Hrun.
  repeat (case_match || case_bool_decide); simplify_eq; done.
Qed.

Lemma resource_parses_add_resource s package_name filename :
  resource_parses (add_parse_call (ParsedResource package_name filename) s)
  = resource_parses s ++ [(package_name, filename)].
Proof. unfold resource_parses. simpl. by rewrite omap_app. Qed.

Lemma resource_parses_add_user s filename :
  resource_parses (add_parse_call (ParsedUserFile filename) s) = resource_parses s.
Proof. unfold resource_parses. simpl. by rewrite omap_app, app_nil_r. Qed.

Lemma parsePackageYaml_keeps_parsed_once package_name filename :
  keeps parsed_once_cached (parsePackageYaml package_name filename).
Proof.
  intros s outcome s' [Hnodup Hcached] Hrun Hout.
  destruct (_yaml_cache s !! (package_name, filename)) as [r|] eqn:Hcache.
  { rewrite (parsePackageYaml_hit s _ _ r Hcache) in Hrun. by simplify_eq. }
  assert ((package_name, filename) ∉ resource_parses s) as Hnew.
  { intros Hin. apply Hcached in Hin as [? ?]. congruence. }
  destruct (pkgutil_get_data package_name filename) as [data|] eqn:Hdata;
    [|rewrite (parsePackageYaml_no_resource s _ _ Hcache Hdata) in Hrun;
      by simplify_eq].
  destruct (classify_checksum data) as [e|validated] eqn:Hclass;
    [rewrite (parsePackageYaml_unclassified s _ _ data e Hcache Hdata Hclass) in Hrun;
     by simplify_eq|].
  rewrite (parsePackageYaml_miss s _ _ data validated Hcache Hdata Hclass) in Hrun.
  set (s1 := if bool_decide (validated = "matching") then s
             else add_warning (checksum_warning filename validated) s) in Hrun.
  assert (resource_parses s1 = resource_parses s ∧ _yaml_cache s1 = _yaml_cache s)
    as [Hparses Hsame].
  { subst s1. by case_bool_decide. }
  clearbody s1.
  unfold parse_construct_cache, new in Hrun. unfold_M.
  destruct (parseYaml data) as [e|parsed] eqn:Hparse.
  { unfold parseYaml, Raise, Return in Hparse.
    destruct (yaml_load data); simplify_eq. by simpl in Hout. }
  destruct (PackageConfigYaml.__init__ filename parsed) as [e|doc] eqn:Hinit.
  { simplify_eq. destruct e; simpl in Hout; try done.
    by apply init_not_IOError in Hinit. }
  cbv beta iota in Hrun. simpl in Hrun.
  rewrite lookup_insert_eq in Hrun. simplify_eq.
  split.
  - change (NoDup (resource_parses
      (add_parse_call (ParsedResource package_name filename) s1))).
    rewrite resource_parses_add_resource, Hparses.
    apply NoDup_app. split; [done|]. split; [|apply NoDup_singleton].
    intros key Hkey. rewrite list_elem_of_singleton. by intros ->.
  - intros key.
    change (key ∈ resource_parses
              (add_parse_call (ParsedResource package_name filename) s1) →
            is_Some (<[(package_name, filename) :=
                        fresh (dom (objects s1))]> (_yaml_cache s1) !! key)).
    rewrite resource_parses_add_resource, Hparses, Hsame, elem_of_app.
    rewrite list_elem_of_singleton, lookup_insert_is_Some.
    intros [Hin | ->]; [|by left].
    destruct (decide ((package_name, filename) = key)); [by left|].
    right. split; [done | by apply Hcached].
Qed.

Lemma getYamlPackageConfiguration_keeps_parsed_once :
  keeps parsed_once_cached getYamlPackageConfiguration.
Proof.
  unfold getYamlPackageConfiguration.
  apply keeps_bind; [apply keeps_gets|]. intros current.
  apply keeps_bind; [|intros _; apply keeps_gets].
  case_bool_decide; [|apply keeps_ret].
  unfold build_package_config.
  apply keeps_bind; [apply parsePackageYaml_keeps_parsed_once|]. intros standard.
  apply keeps_bind; [by apply keeps_modify|]. intros _.
  apply keeps_merge_further_sources.
  - done.
  - intros filename s [Hnodup Hcached].
    unfold parsed_once_cached. by rewrite resource_parses_add_user.
  - apply parsePackageYaml_keeps_parsed_once.
Qed.

Lemma reachable_parsed_once s : reachable s → parsed_once_cached s.
Proof.
  induction 1 as [fs | s s' package_name filename r _ IH Hrun
                     | s s' config _ IH Hrun].
  - split; [apply NoDup_nil_2|]. intros key Hkey. by apply elem_of_nil in Hkey.
  - by apply (parsePackageYaml_keeps_parsed_once package_name filename
                s (Return r) s').
  - by apply (getYamlPackageConfiguration_keeps_parsed_once s (Return config) s').
Qed.

Lemma build_package_config_sets s s' :
  build_package_config s = (Return (), s') → ∃ r, _package_config s' = Some r.
Proof.
  unfold build_package_config. unfold_M.
  destruct (parsePackageYaml "nuitka.plugins.standard"
              "standard.nuitka-package.config.yml" s) as [[e|standard] s1];
    [done|].
  intros Hrest. exists standard.
  apply (keeps_merge_further_sources (λ s, _package_config s = Some standard)
           ltac:(done) ltac:(done)
           (λ package_name filename,
              parsePackageYaml_keeps_config package_name filename (Some standard))
           (set_package_config (Some standard) s1) (Return ()) s');
    done.
Qed.

Lemma getYamlPackageConfiguration_set s r :
  _package_config s = Some r →
  getYamlPackageConfiguration s = (Return (Some r), s).
Proof.
  intros Hcurrent. unfold getYamlPackageConfiguration. unfold_M.
  rewrite Hcurrent. rewrite bool_decide_eq_false_2 by done.
  cbv beta iota. by rewrite Hcurrent.
Qed.

(** C7. A call of the accessor that returns hands out a reference, and
    every later call hands out that same reference and leaves the state,
    parse log included, as it is; a load that returns is answered from the
    cache afterwards, with the same reference and an unchanged state; and
    in every state a running process reaches, no key was handed to the
    parser more than once. *)
Theorem singleton_and_load_cache :
  (∀ s config s',
     getYamlPackageConfiguration s = (Return config, s') →
     ∃ r, config = Some r
          ∧ getYamlPackageConfiguration s' = (Return (Some r), s'))
  ∧ (∀ s package_name filename r s',
       parsePackageYaml package_name filename s = (Return r, s') →
       parsePackageYaml package_name filename s' = (Return r, s'))
  ∧ (∀ s, reachable s → NoDup (resource_parses s)).
Proof.
  split; [|split].
  - intros s config s'.
    destruct (_package_config s) as [r|] eqn:Hcurrent.
    + rewrite (getYamlPackageConfiguration_set s r Hcurrent). intros [= <- <-].
      exists r. split; [done|]. by apply getYamlPackageConfiguration_set.
    + unfold getYamlPackageConfiguration at 1. unfold_M. rewrite Hcurrent.
      rewrite bool_decide_eq_true_2 by done.
      destruct (build_package_config s) as [[e|[]] s1] eqn:Hbuild;
        [intros ?; simplify_eq|].
      intros [= <- <-]. destruct (build_package_config_sets s s1 Hbuild) as [r Hr].
      exists r. split; [done|]. by apply getYamlPackageConfiguration_set.
  - intros s package_name filename r s' Hrun.
    apply parsePackageYaml_hit. by eapply parsePackageYaml_Return.
  - intros s Hreach. by apply reachable_parsed_once.
Qed.

End Singleton.

(** * The sample installation at work *)

Example sample_standard_loads :
  (@parsePackageYaml Sample.externals "nuitka.plugins.standard"
     "standard.nuitka-package.config.yml" Sample.start).1 = Return 0.
Proof. vm_compute. reflexivity. Qed.

Example sample_configuration_merges_all_sources :
  PackageConfigYaml.keys <$> objects Sample.built !! 0
  = Some ["foo"; "bar.baz"; "qux"; "mine"].
Proof. vm_compute. reflexivity. Qed.

(** The aggregate is the cached standard document itself. *)
Example sample_aggregate_is_cached_standard :
  _package_config Sample.built
  = _yaml_cache Sample.built
      !! ("nuitka.plugins.standard", "standard.nuitka-package.config.yml").
Proof. vm_compute. reflexivity. Qed.

(** Two separator lines in a row share a line feed: the scan finds one
    separator only and the body runs to the end. *)
Example adjacent_separator_lines :
  document_body (b "a" ++ [x0a] ++ b "---" ++ [x0a] ++ b "---" ++ [x0a] ++ b "b")
  = Return (b "---" ++ [x0a] ++ b "b").
Proof. vm_compute. reflexivity. Qed.

(** ** Instances of the theorems *)

Lemma duplicate_module_name_aborts_witness :
  (∃ e, @PackageConfigYaml.__init__ Sample.externals "dup.yml"
          (VList Sample.foo_bar_twice) = Raise e)
  ∧ ∃ self',
      PackageConfigYaml.update Sample.foo_document Sample.bar_document
      = (self', None)
      ∧ PackageConfigYaml.keys self' = ["foo"; "bar"].
Proof.
  destruct (@duplicate_module_name_aborts Sample.externals)
    as (_ & Hrepeat & _ & Hdisjoint).
  split.
  - apply (Hrepeat "dup.yml" Sample.foo_bar_twice 0 1
             [("module-name", VStr "foo.bar"); ("data-files", VNone)]
             [("module-name", VStr "foo.bar")] (VStr "foo.bar"));
      [lia | reflexivity..].
  - destruct (Hdisjoint Sample.foo_document Sample.bar_document)
      as (self' & Hupdate & _ & Hitems & _).
    + vm_compute. apply NoDup_singleton.
    + intros key Hkey. vm_compute in Hkey. vm_compute.
      apply list_elem_of_singleton in Hkey as ->.
      intros Hbar. by apply list_elem_of_singleton in Hbar.
    + exists self'. split; [exact Hupdate|].
      unfold PackageConfigYaml.keys, OrderedDict.keys.
      unfold PackageConfigYaml.items in Hitems. rewrite Hitems. reflexivity.
Defined.

Lemma get_normalizes_section_witness :
  PackageConfigYaml.get Sample.foo_document "foo" "data-files"
  = PackageConfigYaml.Tuple [VDict [("dirs", VList [VStr "x"])]]
  ∧ PackageConfigYaml.get Sample.foo_document "unknown" "data-files"
    = PackageConfigYaml.Tuple [].
Proof.
  destruct (get_normalizes_section Sample.foo_document "foo" "data-files")
    as [_ Hknown].
  destruct (Hknown [("data-files", VDict [("dirs", VList [VStr "x"])])] eq_refl)
    as (_ & Hmapping & _).
  split; [apply Hmapping; reflexivity|].
  apply (get_normalizes_section Sample.foo_document "unknown" "data-files").
  vm_compute. intros Hin. by apply list_elem_of_singleton in Hin.
Defined.

Lemma checksum_covers_body_between_separators_witness :
  @_calculateYamlFileChecksum Sample.externals Sample.two_documents
  = Return (encode_utf8 (Sample.hash (b "- module-name: 'foo'"))).
Proof.
  apply (@checksum_covers_body_between_separators Sample.externals
           (b "# head") (b "- module-name: 'foo'") (b "- module-name: 'bar'")).
  - apply (find_occurs header_separator Sample.two_documents 6).
    vm_compute. reflexivity.
  - apply (find_occurs header_separator
             (b "- module-name: 'foo'" ++ header_separator
              ++ b "- module-name: 'bar'") 20).
    vm_compute. reflexivity.
Defined.

Lemma construction_checks_in_order_witness :
  truthy (VStr "") = false
  ∧ @PackageConfigYaml.accept_item Sample.externals "user.yml" []
      (VDict [("module-name", VStr ""); ("data-files", VNone)])
    = Raise (SystemExit (empty_name_message "user.yml")).
Proof.
  split; [reflexivity|].
  destruct (@construction_checks_in_order Sample.externals "user.yml" []
              [("module-name", VStr ""); ("data-files", VNone)])
    as (_ & Hempty & _).
  apply (Hempty (VStr "")); reflexivity.
Defined.

Lemma checksum_classification_of_load_witness :
  @parsePackageYaml Sample.externals "nuitka.plugins.standard" "stale.yml"
    Sample.start
  = @parse_construct_cache Sample.externals "nuitka.plugins.standard" "stale.yml"
      Sample.stale
      (add_warning (checksum_warning "stale.yml" "not matching") Sample.start).
Proof.
  destruct (@checksum_classification_of_load Sample.externals Sample.start
              "nuitka.plugins.standard" "stale.yml" Sample.stale)
    as (_ & _ & Hgoes_on & _).
  - vm_compute. reflexivity.
  - vm_compute. reflexivity.
  - destruct (Hgoes_on "not matching") as [_ Hload].
    + vm_compute. reflexivity.
    + exact Hload.
Defined.

Lemma checksum_without_separator_is_malformed_witness :
  @_calculateYamlFileChecksum Sample.externals Sample.headless
  = Raise (ValueError "Malformed yaml data without --- header").
Proof.
  apply (@checksum_without_separator_is_malformed Sample.externals Sample.headless).
  apply contains_false. vm_compute. reflexivity.
Defined.

Lemma singleton_and_load_cache_witness :
  (∃ r, Some 0 = Some r
        ∧ @getYamlPackageConfiguration Sample.externals Sample.built
          = (Return (Some r), Sample.built))
  ∧ @parsePackageYaml Sample.externals "nuitka.plugins.standard"
      "standard.nuitka-package.config.yml" Sample.loaded
    = (Return 0, Sample.loaded).
Proof.
  destruct (@singleton_and_load_cache Sample.externals) as (Hsingleton & Hcache & _).
  split.
  - apply (Hsingleton Sample.start). vm_compute. reflexivity.
  - apply (Hcache Sample.start). vm_compute. reflexivity.
Defined.

Lemma stale_checksum_rewrite_joins_lines_with_LF_witness :
  @checkOrUpdateChecksum Sample.externals "stale.yml" false Sample.start
  = (Raise (SystemExit
       "Error, checksum does not match, use --update or enable commit hook."),
     Sample.start).
Proof.
  apply (@stale_checksum_rewrite_joins_lines_with_LF Sample.externals Sample.start
           "stale.yml" Sample.stale (b "# checksum: 00")
           (encode_utf8 (Sample.hash Sample.standard_body))).
  - vm_compute. reflexivity.
  - vm_compute. reflexivity.
  - vm_compute. reflexivity.
  - vm_compute. reflexivity.
  - split; [vm_compute; discriminate|].
    vm_compute. repeat (apply Forall_cons; split; [reflexivity|]).
    apply Forall_nil_2.
  - vm_compute. discriminate.
Defined.

Lemma verdict_compares_whole_file_witness :
  getYamlFileChecksum Sample.unterminated
  = Return (Some (encode_utf8 (Sample.hash (b "- module-name: 'foo'"))))
  ∧ @checkOrUpdateChecksum Sample.externals "unterminated.yml" false Sample.start
    = (Raise (SystemExit
         "Error, checksum does not match, use --update or enable commit hook."),
       Sample.start).
Proof.
  split; [vm_compute; reflexivity|].
  destruct (@verdict_compares_whole_file Sample.externals Sample.start
              "unterminated.yml" Sample.unterminated
              (b "# checksum: " ++ encode_utf8 (Sample.hash (b "- module-name: 'foo'")))
              (encode_utf8 (Sample.hash (b "- module-name: 'foo'"))))
    as [_ Hmismatch].
  - vm_compute. reflexivity.
  - vm_compute. reflexivity.
  - vm_compute. reflexivity.
  - vm_compute. reflexivity.
  - apply Hmismatch; [vm_compute; reflexivity|].
    intros Heq. apply (f_equal length) in Heq. vm_compute in Heq. discriminate.
Defined.

Lemma checksum_extraction_index_error_witness :
  length (split_ws (b "# checksum: ")) < 3
  ∧ getYamlFileChecksum Sample.bare_marker = Raise IndexError.
Proof.
  split; [vm_compute; lia|].
  apply (proj1 (checksum_extraction_index_error Sample.bare_marker)
           (b "# checksum: ")).
  - vm_compute. reflexivity.
  - vm_compute. reflexivity.
  - vm_compute. lia.
Defined.

(** ** Where the code departs from the specification *)

(** C4. A record without ["module-name"] does not reach the empty-name
    exit: [item.pop] raises [KeyError] first. *)
Lemma missing_module_name_raises_KeyError :
  @PackageConfigYaml.__init__ Sample.externals "user.yml"
    (VList [VDict [("data-files", VList [])]])
  = Raise (KeyError "module-name")
  ∧ @PackageConfigYaml.__init__ Sample.externals "user.yml"
      (VList [VDict [("data-files", VList [])]])
    ≠ Raise (SystemExit (empty_name_message "user.yml")).
Proof. split; [vm_compute; reflexivity | vm_compute; discriminate]. Qed.

(** C5. A resource with the marker on line 4 and no separator: the
    classification raises and the load ends, although parsing and
    construction would have gone through. *)
Lemma marker_without_separator_aborts_load :
  @classify_checksum Sample.externals Sample.headless
  = Raise (ValueError "Malformed yaml data without --- header")
  ∧ @parsePackageYaml Sample.externals "nuitka.plugins.standard" "headless.yml"
      Sample.start
    = (Raise (ValueError "Malformed yaml data without --- header"), Sample.start)
  ∧ (@parse_construct_cache Sample.externals "nuitka.plugins.standard"
       "headless.yml" Sample.headless Sample.start).1 = Return 0.
Proof. repeat split; vm_compute; reflexivity. Qed.

(** C8. A stale file with one CRLF inside the body: it has more than
    five lines and the marker on line 4, the update is authorized and the
    file is rewritten, yet the written content is not the old one with
    line 4 exchanged, wherever one cuts: it is one byte shorter, the
    carriage return being gone. *)
Lemma rewrite_changes_bytes_outside_line_4 :
  splitlines Sample.crlf_stale !! 4 = Some (b "# checksum: 00")
  ∧ getYamlFileChecksum Sample.crlf_stale = Return (Some (b "00"))
  ∧ @_calculateYamlFileChecksum Sample.externals Sample.crlf_stale
    = Return (b "96")
  ∧ @checkOrUpdateChecksum Sample.externals "crlf.yml" true Sample.crlf_start
    = (Return (),
       add_info "OK, updated checksum."
         (set_files <["crlf.yml" := rewritten Sample.crlf_stale (b "96")]>
            Sample.crlf_start))
  ∧ ¬ ∃ before after,
        Sample.crlf_stale = before ++ b "# checksum: 00" ++ after
        ∧ rewritten Sample.crlf_stale (b "96")
          = before ++ b "# checksum: 96" ++ after.
Proof.
  split; [vm_compute; reflexivity|]. split; [vm_compute; reflexivity|].
  split; [vm_compute; reflexivity|]. split; [vm_compute; reflexivity|].
  intros (before & after & Hold & Hnew).
  apply (f_equal length) in Hold. apply (f_equal length) in Hnew.
  rewrite !length_app in Hold, Hnew.
  assert (length (rewritten Sample.crlf_stale (b "96")) + 1
          = length Sample.crlf_stale) as Hshorter by (vm_compute; reflexivity).
  assert (length (b "# checksum: 96") = length (b "# checksum: 00")) as Hsame
    by (vm_compute; reflexivity).
  lia.
Qed.

(** ** The byte string primitives on small inputs *)

Example splitlines_sample :
  splitlines (b "a" ++ [x0d; x0a] ++ b "b" ++ [x0a; x0a] ++ b "c" ++ [x0d] ++ b "d")
  = [b "a"; b "b"; []; b "c"; b "d"].
Proof. reflexivity. Qed.

Example splitlines_final_terminator :
  splitlines (b "a" ++ [x0a]) = [b "a"] ∧ splitlines [x0a] = [[]] ∧ splitlines [] = [].
Proof. repeat split; reflexivity. Qed.

Example split_ws_sample :
  split_ws (b "# checksum:  abc " ++ [x09] ++ b "d")
  = [b "#"; b "checksum:"; b "abc"; b "d"].
Proof. reflexivity. Qed.

Example split_sample :
  split (b "--") 2 (b "a--b----c") = [b "a"; b "b"; b "--c"].
Proof. reflexivity. Qed.

(** * Further properties of the code *)

(** ** What a constructed document holds *)

Section ConstructionResult.

Context `{Externals}.

Implicit Types (self_name : string) (items : list value)
  (self_data added : OrderedDict.t (OrderedDict.t value)).

Lemma init_loop_Return self_name self_data items result_data :
  PackageConfigYaml.init_loop self_name self_data items = Return result_data →
  ∃ added, result_data = self_data ++ added ∧ Forall2 accepted_record items added.
Proof.
  revert self_data. induction items as [|item items IH]; intros self_data; simpl.
  - intros [= <-]. exists []. by rewrite app_nil_r.
  - destruct (PackageConfigYaml.accept_item self_name self_data item)
      as [e|d1] eqn:Hacc; [done|].
    unfold_result. simpl. intros Hrest.
    apply accept_item_Return in Hacc
      as (entries & s & remaining & -> & Hpop & Hne & Hslash & Hcheck & _ & ->).
    destruct (IH _ Hrest) as (added & -> & Hall).
    exists ((s, remaining) :: added). split; [by rewrite <- app_assoc|].
    apply Forall2_cons. split; [|done]. by exists entries.
Qed.

Lemma od_get_lookup {V : Type} (d : OrderedDict.t V) i key v :
  OrderedDict.wf d → d !! i = Some (key, v) → OrderedDict.get key d = Some v.
Proof.
  revert i. induction d as [|[k w] d IH]; intros i Hwf Hi; [done|].
  apply NoDup_cons in Hwf as [Hfresh Hwf]. simpl.
  destruct i as [|i]; simpl in Hi.
  - simplify_eq. by rewrite decide_True.
  - destruct (decide (k = key)) as [->|Hne]; [|by apply (IH i)].
    exfalso. apply Hfresh. apply list_elem_of_fmap. exists (key, v).
    split; [done|]. by eapply list_elem_of_lookup_2.
Qed.

Lemma od_pop_get_ne {V : Type} (d rest : OrderedDict.t V) key other v :
  OrderedDict.pop key d = Some (v, rest) →
  other ≠ key →
  OrderedDict.get other rest = OrderedDict.get other d.
Proof.
  revert rest. induction d as [|[k w] d IH]; intros rest; simpl; [done|].
  destruct (decide (k = key)) as [->|Hne].
  - intros [= <- <-] Hother. by rewrite decide_False.
  - destruct (OrderedDict.pop key d) as [[w' rest']|]; [|done]. simpl.
    intros [= <- <-] Hother. simpl. destruct (decide (k = other)); [done|].
    by apply IH.
Qed.

(** X1. A construction that returns has stored one entry per record, in
    the order of the records: the key is the record's module name, a
    non-empty string without ["/"] that [checkModuleName] accepts, the value
    is the record without ["module-name"]; the keys are pairwise distinct
    and the document carries the name it was given. *)
Theorem construction_stores_each_record name items self :
  PackageConfigYaml.__init__ name (VList items) = Return self →
  PackageConfigYaml.name self = name
  ∧ OrderedDict.wf (PackageConfigYaml.data self)
  ∧ Forall2 accepted_record items (PackageConfigYaml.items self).
Proof.
  intros Hinit. split; [|split].
  - unfold PackageConfigYaml.__init__ in Hinit. unfold_result.
    destruct (PackageConfigYaml.init_loop name [] items); by simplify_eq.
  - by apply (init_wf name (VList items)).
  - unfold PackageConfigYaml.__init__ in Hinit. unfold_result.
    destruct (PackageConfigYaml.init_loop name [] items) as [e|d] eqn:Hloop;
      [done|].
    simplify_eq. simpl.
    by destruct (init_loop_Return _ _ _ _ Hloop) as (added & -> & Hall).
Qed.

(** X2. Looking up, in a constructed document, a section of the module
    some record names gives what that record holds under the section:
    nothing as the empty tuple, a mapping wrapped in a tuple, anything else
    as it is. *)
Theorem get_after_construction name items self i entries m section_name :
  PackageConfigYaml.__init__ name (VList items) = Return self →
  items !! i = Some (VDict entries) →
  OrderedDict.get "module-name" entries = Some (VStr m) →
  section_name ≠ "module-name" →
  PackageConfigYaml.get self m section_name
  = as_section (OrderedDict.get section_name entries).
Proof.
  intros Hinit Hitem Hname Hsection.
  pose proof (init_wf _ _ _ Hinit) as Hwf.
  unfold PackageConfigYaml.__init__ in Hinit. unfold_result.
  destruct (PackageConfigYaml.init_loop name [] items) as [e|d] eqn:Hloop; [done|].
  simplify_eq. simpl in Hwf.
  destruct (init_loop_Return _ _ _ _ Hloop) as (added & -> & Hall).
  simpl in Hwf.
  destruct (Forall2_lookup_l _ _ _ _ _ Hall Hitem)
    as ([key remaining] & Hstored & entries' & [= <-] & Hpop & _).
  simpl in Hpop. rewrite od_pop_get, Hpop in Hname. simpl in Hname. simplify_eq.
  unfold PackageConfigYaml.get. simpl.
  rewrite (od_get_lookup added i m remaining Hwf Hstored).
  rewrite (od_pop_get_ne _ _ _ _ _ Hpop Hsection).
  by destruct (OrderedDict.get section_name entries) as [[]|].
Qed.

(** X3. A module name that is a truthy scalar other than a string (a
    nonzero integer, [True]) makes the path separator test raise
    [TypeError]; a non-empty list that passes the tests raises it at the
    duplicate test, being unhashable. No exit message is produced. *)
Theorem non_string_module_name_raises_TypeError self_name self_data
    entries module_name remaining :
  OrderedDict.pop "module-name" entries = Some (module_name, remaining) →
  module_name = VBool true
  ∨ (∃ z, z ≠ 0%Z ∧ module_name = VInt z)
  ∨ (∃ members, module_name = VList members ∧ members ≠ []
       ∧ slash_in module_name = Return false
       ∧ checkModuleName module_name = true) →
  PackageConfigYaml.accept_item self_name self_data (VDict entries)
  = Raise TypeError.
Proof.
  intros Hpop Hkind. unfold PackageConfigYaml.accept_item. rewrite Hpop.
  destruct Hkind as [-> | [(z & Hz & ->) | (members & -> & Hne & Hslash & Hcheck)]].
  - done.
  - simpl. by rewrite (proj2 (Z.eqb_neq z 0) Hz).
  - destruct members as [|member members]; [done|].
    cbn [truthy negb]. rewrite Hslash, Hcheck. done.
Qed.

End ConstructionResult.

(** ** What a merge does to the aggregate *)

Section MergeResult.

Implicit Types (self_data taken : OrderedDict.t (OrderedDict.t value))
  (other_items before after : list (string * OrderedDict.t value))
  (self other : PackageConfigYaml.t).

Lemma update_loop_extends self_data other_items self_data' failure :
  PackageConfigYaml.update_loop self_data other_items = (self_data', failure) →
  ∃ taken,
    self_data' = self_data ++ taken
    ∧ taken `prefix_of` other_items
    ∧ (OrderedDict.wf self_data → OrderedDict.wf self_data').
Proof.
  revert self_data.
  induction other_items as [|[key entry] rest IH]; intros self_data; simpl.
  - intros [= <- <-]. exists []. by rewrite app_nil_r.
  - destruct (OrderedDict.contains key self_data) eqn:Hin.
    + intros [= <- <-]. exists []. rewrite app_nil_r.
      split; [done|]. split; [apply prefix_nil | done].
    + apply od_contains_false in Hin. rewrite (od_set_fresh _ _ _ Hin).
      intros Hrest. destruct (IH _ Hrest) as (taken & -> & Hprefix & Hwf).
      exists ((key, entry) :: taken). split; [by rewrite <- app_assoc|].
      split; [by apply prefix_cons|]. intros Hself. apply Hwf.
      unfold OrderedDict.wf. rewrite od_keys_app. apply NoDup_app.
      split; [done|]. split; [|apply NoDup_singleton].
      intros k Hk. simpl. rewrite list_elem_of_singleton. by intros ->.
Qed.

Lemma update_loop_stops self_data before key entry after :
  OrderedDict.wf before →
  (∀ k, k ∈ OrderedDict.keys self_data → k ∉ OrderedDict.keys before) →
  key ∈ OrderedDict.keys self_data →
  PackageConfigYaml.update_loop self_data (before ++ (key, entry) :: after)
  = (self_data ++ before, Some (AssertionError key)).
Proof.
  revert self_data.
  induction before as [|[k e] before IH]; intros self_data Hwf Hdisj Hkey; simpl.
  - rewrite (proj2 (od_contains_true self_data key) Hkey). by rewrite app_nil_r.
  - apply NoDup_cons in Hwf as [Hfresh Hwf].
    assert (k ∉ OrderedDict.keys self_data) as Hnew.
    { intros Hin. apply (Hdisj k Hin). apply list_elem_of_here. }
    rewrite (proj2 (od_contains_false self_data k) Hnew).
    rewrite (od_set_fresh _ _ _ Hnew), IH; [by rewrite <- app_assoc | done | |].
    + intros k'. rewrite od_keys_app, elem_of_app. simpl.
      rewrite list_elem_of_singleton. intros [Hk' | ->]; [|done].
      intros Hin. apply (Hdisj k' Hk'). by apply list_elem_of_further.
    + rewrite od_keys_app, elem_of_app. by left.
Qed.

(** X4. A merge that meets a shared module name is not undone: the
    entries of [other] that come before the first shared name have been
    inserted into [self] when the assertion fails, and the assertion names
    that first shared name. *)
Theorem failed_merge_keeps_earlier_entries self other before key entry after :
  PackageConfigYaml.items other = before ++ (key, entry) :: after →
  OrderedDict.wf before →
  (∀ k, k ∈ PackageConfigYaml.keys self → k ∉ OrderedDict.keys before) →
  key ∈ PackageConfigYaml.keys self →
  PackageConfigYaml.update self other
  = (PackageConfigYaml.Build (PackageConfigYaml.name self)
       (PackageConfigYaml.data self ++ before),
     Some (AssertionError key)).
Proof.
  intros Hitems Hwf Hdisj Hkey. unfold PackageConfigYaml.update.
  rewrite Hitems.
  by rewrite (update_loop_stops (PackageConfigYaml.data self) before key entry
                after Hwf Hdisj Hkey).
Qed.

(** X5. Whether it succeeds or fails, a merge only appends: what [self]
    held stays in place and unchanged, what is added is an initial stretch
    of the entries of [other] in their order, the name of [self] is kept,
    and unique keys stay unique. *)
Theorem update_only_appends self other self' failure :
  PackageConfigYaml.update self other = (self', failure) →
  PackageConfigYaml.name self' = PackageConfigYaml.name self
  ∧ (∃ taken,
       PackageConfigYaml.data self' = PackageConfigYaml.data self ++ taken
       ∧ taken `prefix_of` PackageConfigYaml.items other)
  ∧ (∀ key entry,
       OrderedDict.get key (PackageConfigYaml.data self) = Some entry →
       OrderedDict.get key (PackageConfigYaml.data self') = Some entry)
  ∧ (OrderedDict.wf (PackageConfigYaml.data self) →
     OrderedDict.wf (PackageConfigYaml.data self')).
Proof.
  unfold PackageConfigYaml.update.
  destruct (PackageConfigYaml.update_loop (PackageConfigYaml.data self)
              (PackageConfigYaml.items other)) as [self_data' failure'] eqn:Hloop.
  intros [= <- <-]. simpl.
  destruct (update_loop_extends _ _ _ _ Hloop) as (taken & -> & Hprefix & Hwf).
  split; [done|]. split; [by exists taken|]. split; [|done].
  intros key entry Hget. by rewrite od_get_app, Hget.
Qed.

(** X6. After a merge of documents without a shared module name, a
    lookup in the aggregate is the lookup in [self] for the modules of
    [self] and the lookup in [other] for all other modules. *)
Theorem get_after_update self other self' m section_name :
  OrderedDict.wf (PackageConfigYaml.data other) →
  (∀ key, key ∈ PackageConfigYaml.keys self →
          key ∉ PackageConfigYaml.keys other) →
  PackageConfigYaml.update self other = (self', None) →
  PackageConfigYaml.get self' m section_name
  = if decide (m ∈ PackageConfigYaml.keys self)
    then PackageConfigYaml.get self m section_name
    else PackageConfigYaml.get other m section_name.
Proof.
  intros Hwf Hdisj.
  unfold PackageConfigYaml.update, PackageConfigYaml.items,
    PackageConfigYaml.keys in *.
  rewrite (update_loop_disjoint _ _ Hwf Hdisj). intros [= <-].
  unfold PackageConfigYaml.get. simpl. rewrite od_get_app.
  destruct (decide (m ∈ OrderedDict.keys (PackageConfigYaml.data self)))
    as [Hin|Hout].
  - destruct (OrderedDict.get m (PackageConfigYaml.data self)) eqn:Hget; [done|].
    by apply od_get_None in Hget.
  - apply od_get_None in Hout. by rewrite Hout.
Qed.

End MergeResult.

(** ** More on the checksum codec *)

Section ChecksumMore.

Context `{Externals}.

Implicit Types (data pre rest line token digest : bytes).

(** X7. With a single separator, as shipped files have it, the digest
    covers everything after the separator, to the end of the content, and
    nothing before it. *)
Theorem checksum_single_separator_covers_rest pre rest :
  let data := pre ++ header_separator ++ rest in
  (∀ k, k < length pre → occurs_at header_separator data k = false) →
  contains header_separator rest = false →
  _calculateYamlFileChecksum data = Return (encode_utf8 (getStringHash rest)).
Proof.
  intros data Hpre Hrest. unfold _calculateYamlFileChecksum, document_body, split.
  assert (contains header_separator data = true) as ->.
  { apply contains_occurs. exists (length pre). apply occurs_at_app_length. }
  rewrite (find_first _ _ (length pre)); [| apply occurs_at_app_length | done].
  subst data. rewrite drop_app_add, drop_app_length.
  by rewrite (proj2 (find_none_contains header_separator rest) Hrest).
Qed.

Lemma checksum_not_IndexError data :
  _calculateYamlFileChecksum data ≠ Raise IndexError.
Proof.
  unfold _calculateYamlFileChecksum, document_body.
  destruct (contains header_separator data) eqn:Hin; [|done].
  by destruct (split_lookup_1 _ _ Hin) as [body ->].
Qed.

(** X10. The checksum test written out inside [parsePackageYaml] and the
    reader [getYamlFileChecksum] agree: the load calls the checksum not
    present exactly when the reader finds none, it fails with [IndexError]
    exactly when the reader does, and when the checksum can be computed it
    calls the file matching exactly when the reader finds that digest. *)
Theorem classification_agrees_with_reader data :
  (classify_checksum data = Return "not present"
   ↔ getYamlFileChecksum data = Return None)
  ∧ (classify_checksum data = Raise IndexError
     ↔ getYamlFileChecksum data = Raise IndexError)
  ∧ (∀ digest, _calculateYamlFileChecksum data = Return digest →
       (classify_checksum data = Return "matching"
        ↔ getYamlFileChecksum data = Return (Some digest))).
Proof.
  pose proof (checksum_not_IndexError data) as Hnot.
  unfold classify_checksum, getYamlFileChecksum. cbv zeta.
  destruct (splitlines data !! 4) as [line|]; [|by repeat split].
  destruct (startswith line checksum_marker); [|by repeat split].
  destruct (split_ws line !! 2) as [token|]; [|by repeat split].
  split; [|split].
  - destruct (_calculateYamlFileChecksum data) as [e|digest]; unfold_result;
      [by split|].
    by case_bool_decide.
  - destruct (_calculateYamlFileChecksum data) as [e|digest]; unfold_result.
    + split; [|done]. intros [= ->]. by destruct Hnot.
    + by case_bool_decide.
  - intros digest ->. unfold_result. case_bool_decide as Hcmp.
    + split; [done|]. intros [= ->]. by destruct Hcmp.
    + split; [|done]. intros _. by rewrite Hcmp.
Qed.

End ChecksumMore.

(** ** More on the maintenance tool *)

Section ToolMore.

Context `{Externals}.

Implicit Types (s : state) (old new line digest : bytes) (filename : string).

Lemma written_line_has_tool_marker digest :
  startswith (b "# checksum: " ++ digest) checksum_marker_tool = true.
Proof.
  unfold checksum_marker_tool.
  set (written := b "# checksum: "). vm_compute in written. subst written.
  set (marker := b "# checksum:"). vm_compute in marker. subst marker.
  reflexivity.
Qed.

Lemma rewritten_twice old line digest :
  splitlines old !! 4 = Some line →
  no_linebreak digest →
  rewritten (rewritten old digest) digest = rewritten old digest.
Proof.
  intros Hline Hdigest. unfold rewritten at 1.
  rewrite (splitlines_rewritten old line digest Hline Hdigest).
  by rewrite list_insert_insert_eq.
Qed.

(** X8. What the tool writes, the reader reads back: the content written
    for a digest that is a token carries that digest on line 4 for
    [getYamlFileChecksum]; and if rewriting left the checksum of the content
    at that digest, running the tool on the written file, with or without
    [update], reports a valid checksum and writes nothing. *)
Theorem written_checksum_is_read_back old line digest :
  splitlines old !! 4 = Some line →
  is_token digest →
  getYamlFileChecksum (rewritten old digest) = Return (Some digest)
  ∧ (_calculateYamlFileChecksum (rewritten old digest) = Return digest →
     ∀ s filename update,
       files s !! filename = Some (rewritten old digest) →
       checkOrUpdateChecksum filename update s
       = (Return (), add_info "OK, checksum valid." s)).
Proof.
  intros Hline Htoken.
  pose proof (token_no_linebreak _ Htoken) as Hdigest.
  assert (splitlines (rewritten old digest) !! 4
          = Some (b "# checksum: " ++ digest)) as Hwritten.
  { rewrite (splitlines_rewritten old line digest Hline Hdigest).
    apply list_lookup_insert_eq. by apply lookup_lt_Some in Hline. }
  split; [by apply getYamlFileChecksum_written|].
  intros Hsame s filename update Hfile.
  rewrite (checkOrUpdateChecksum_eval s filename update (rewritten old digest)
             (b "# checksum: " ++ digest) digest Hfile Hwritten
             (written_line_has_tool_marker digest) Hsame).
  rewrite (rewritten_twice old line digest Hline Hdigest).
  by rewrite bool_decide_eq_false_2 by (by intros Hne; apply Hne).
Qed.

(** X9. A run of the tool that ends in an exception has changed nothing
    at all; a run without [update] never writes; and any run leaves the
    cache, the configuration, the objects and every file but the one named
    as they are. *)
Theorem tool_writes_only_on_authorized_success s filename update outcome s' :
  checkOrUpdateChecksum filename update s = (outcome, s') →
  (∀ e, outcome = Raise e → s' = s)
  ∧ (update = false → files s' = files s)
  ∧ same_but_file filename s s'.
Proof.
  unfold checkOrUpdateChecksum, getFileContents, writeFile, same_but_file.
  unfold_M. cbv zeta.
  destruct (files s !! filename) as [old|]; cbv beta iota;
    [|intros [= <- <-]; by repeat split].
  destruct (splitlines old !! 4) as [line|];
    [|intros [= <- <-]; by repeat split].
  destruct (startswith line checksum_marker_tool); cbn [negb]; cbv beta iota;
    [|intros [= <- <-]; by repeat split].
  destruct (_calculateYamlFileChecksum old) as [e|digest]; cbv beta iota;
    [intros [= <- <-]; by repeat split|].
  case_bool_decide; [destruct update|]; intros [= <- <-]; simpl;
    repeat split; try done.
  intros other Hother. by rewrite lookup_insert_ne.
Qed.

(** X11. Without the marker the tool never proceeds: with fewer than
    five lines, or with a line 4 that does not start with the marker, it
    exits asking for autoformatting, whether [update] is given or not, and
    no marker line is ever inserted. *)
Theorem tool_requires_marker_line s filename update old :
  files s !! filename = Some old →
  length (splitlines old) < 5
  ∨ (∃ line, splitlines old !! 4 = Some line
             ∧ startswith line checksum_marker_tool = false) →
  checkOrUpdateChecksum filename update s
  = (Raise (SystemExit "Make sure the file is autoformatted first."), s).
Proof.
  intros Hfile Hmarker.
  unfold checkOrUpdateChecksum, getFileContents. unfold_M. cbv zeta.
  rewrite Hfile. cbv beta iota.
  destruct Hmarker as [Hshort | (line & -> & ->)]; [|done].
  by rewrite (proj2 (lookup_ge_None (splitlines old) 4)) by lia.
Qed.

End ToolMore.

(** ** What the loader and the aggregator do to the state *)

Section PreservesRules.

Context {A B : Type} (P : state → Prop).

Lemma preserves_ret (x : A) : preserves P (mret x).
Proof. by intros s HP. Qed.

Lemma preserves_raise (e : exn) : preserves P (raise e : M A).
Proof. by intros s HP. Qed.

Lemma preserves_lift (r : result A) : preserves P (lift r).
Proof. by intros s HP. Qed.

Lemma preserves_gets (f : state → A) : preserves P (gets f).
Proof. by intros s HP. Qed.

Lemma preserves_modify (f : state → state) :
  (∀ s, P s → P (f s)) → preserves P (modify f).
Proof. intros Hf s HP. by apply Hf. Qed.

Lemma preserves_bind (m : M A) (k : A → M B) :
  preserves P m → (∀ x, preserves P (k x)) → preserves P (m ≫= k).
Proof.
  intros Hm Hk s HP. unfold mbind, M_bind.
  specialize (Hm s HP). destruct (m s) as [[e|x] s1]; [done|].
  by apply Hk.
Qed.

End PreservesRules.

Section PreservesSources.

Context `{Externals} (P : state → Prop).

Hypothesis P_objects : ∀ f s, P s → P (set_objects f s).
Hypothesis P_user_parse : ∀ filename s,
  P s → P (add_parse_call (ParsedUserFile filename) s).
Hypothesis P_parsePackageYaml : ∀ package_name filename,
  preserves P (parsePackageYaml package_name filename).

Lemma preserves_new (doc : PackageConfigYaml.t) : preserves P (new doc).
Proof. intros s HP. by apply P_objects. Qed.

Lemma preserves_update (self other : ref) : preserves P (update self other).
Proof.
  intros s HP. unfold update.
  repeat case_match; simpl; try done; by apply P_objects.
Qed.

Lemma preserves_getFileContents (filename : string) :
  preserves P (getFileContents filename).
Proof.
  apply preserves_bind; [apply preserves_gets|].
  intros [data|]; [apply preserves_ret | apply preserves_raise].
Qed.

Lemma preserves_except_IOError (m : M unit) :
  preserves P m → preserves P (except_IOError m).
Proof.
  intros Hm s HP. unfold except_IOError. specialize (Hm s HP).
  destruct (m s) as [[e|x] s1]; [|done]. by destruct e.
Qed.

Lemma preserves_package_config_update (other : M ref) :
  preserves P other → preserves P (package_config_update other).
Proof.
  intros Hother. apply preserves_bind; [apply preserves_gets|].
  intros [self|]; [|apply preserves_raise].
  apply preserves_bind; [done|]. intros other_ref. apply preserves_update.
Qed.

Lemma preserves_merge_user_files (filenames : list string) :
  preserves P (merge_user_files filenames).
Proof.
  induction filenames as [|filename filenames IH]; [apply preserves_ret|].
  simpl. apply preserves_bind; [|by intros _].
  apply preserves_package_config_update.
  apply preserves_bind; [apply preserves_getFileContents|]. intros data.
  apply preserves_bind; [apply preserves_modify, P_user_parse|]. intros _.
  apply preserves_bind; [apply preserves_lift|]. intros parsed.
  apply preserves_bind; [apply preserves_lift|]. intros doc.
  apply preserves_new.
Qed.

Lemma preserves_merge_further_sources : preserves P merge_further_sources.
Proof.
  unfold merge_further_sources.
  apply preserves_bind; [by apply preserves_package_config_update|]. intros _.
  apply preserves_bind; [by apply preserves_package_config_update|]. intros _.
  apply preserves_bind;
    [by apply preserves_except_IOError, preserves_package_config_update|].
  intros _. apply preserves_merge_user_files.
Qed.

End PreservesSources.

Section LoaderState.

Context `{Externals}.

Implicit Types (s : state) (package_name filename : string) (r : ref).

(** The three ways a call of [parsePackageYaml] can go. *)
Lemma parsePackageYaml_outcomes s package_name filename outcome s' :
  parsePackageYaml package_name filename s = (outcome, s') →
  same_outside_loader s s'
  ∧ _package_config s' = _package_config s
  ∧ ((∃ r, _yaml_cache s !! (package_name, filename) = Some r
           ∧ outcome = Return r ∧ s' = s)
     ∨ (_yaml_cache s !! (package_name, filename) = None
        ∧ (∃ e, outcome = Raise e)
        ∧ objects s' = objects s
        ∧ _yaml_cache s' = _yaml_cache s)
     ∨ (_yaml_cache s !! (package_name, filename) = None
        ∧ ∃ r doc data parsed,
            outcome = Return r
            ∧ pkgutil_get_data package_name filename = Some data
            ∧ parseYaml data = Return parsed
            ∧ PackageConfigYaml.__init__ filename parsed = Return doc
            ∧ objects s !! r = None
            ∧ objects s' = <[r := doc]> (objects s)
            ∧ _yaml_cache s' = <[(package_name, filename) := r]> (_yaml_cache s))).
Proof.
  intros Hrun. unfold same_outside_loader.
  destruct (_yaml_cache s !! (package_name, filename)) as [r|] eqn:Hcache.
  { rewrite (parsePackageYaml_hit s _ _ r Hcache) in Hrun. simplify_eq.
    repeat split; try done. left. by exists r. }
  destruct (pkgutil_get_data package_name filename) as [data|] eqn:Hdata;
    [|rewrite (parsePackageYaml_no_resource s _ _ Hcache Hdata) in Hrun;
      simplify_eq; repeat split; try done; right; left; by eauto].
  destruct (classify_checksum data) as [e|validated] eqn:Hclass;
    [rewrite (parsePackageYaml_unclassified s _ _ data e Hcache Hdata Hclass) in Hrun;
     simplify_eq; repeat split; try done; right; left; by eauto|].
  rewrite (parsePackageYaml_miss s _ _ data validated Hcache Hdata Hclass) in Hrun.
  set (s1 := if bool_decide (validated = "matching") then s
             else add_warning (checksum_warning filename validated) s) in Hrun.
  assert (objects s1 = objects s ∧ _yaml_cache s1 = _yaml_cache s
          ∧ _package_config s1 = _package_config s
          ∧ files s1 = files s ∧ infos s1 = infos s)
    as (Hobjects & Hsame & Hconfig & Hfiles & Hinfos).
  { subst s1. by case_bool_decide. }
  clearbody s1.
  unfold parse_construct_cache, new in Hrun. unfold_M.
  destruct (parseYaml data) as [e|parsed] eqn:Hparse.
  { simplify_eq. simpl. repeat split; try done. right; left. by eauto. }
  destruct (PackageConfigYaml.__init__ filename parsed) as [e|doc] eqn:Hinit.
  { simplify_eq. simpl. repeat split; try done. right; left. by eauto. }
  cbv beta iota in Hrun. simpl in Hrun.
  rewrite lookup_insert_eq in Hrun. simplify_eq. simpl.
  repeat split; try done. right; right. split; [done|].
  exists (fresh (dom (objects s1))), doc, data, parsed.
  rewrite Hobjects, Hsame. repeat split; try done.
  apply not_elem_of_dom. apply is_fresh.
Qed.

(** X12. A load that raises, for whatever reason, has cached nothing and
    created no object: the cache, the objects and the configuration are
    what they were, so a later load of the same key starts over. *)
Theorem failed_load_caches_nothing s package_name filename e s' :
  parsePackageYaml package_name filename s = (Raise e, s') →
  _yaml_cache s' = _yaml_cache s
  ∧ objects s' = objects s
  ∧ _package_config s' = _package_config s
  ∧ files s' = files s.
Proof.
  intros Hrun.
  destruct (parsePackageYaml_outcomes _ _ _ _ _ Hrun)
    as ([Hfiles _] & Hconfig & [(r & _ & [=] & _) | [(_ & _ & Hobj & Hcache) |
        (_ & r & doc & data & parsed & [=] & _)]]).
  done.
Qed.

(** X16. A load that misses the cache and returns hands out a reference
    no object had before; the object behind it is the document constructed
    from the parsed resource under the file name, with unique module names,
    and it is what the cache now holds for the key; every other object and
    every other cache entry is as before. *)
Theorem cache_miss_allocates_new_object s package_name filename r s' :
  _yaml_cache s !! (package_name, filename) = None →
  parsePackageYaml package_name filename s = (Return r, s') →
  objects s !! r = None
  ∧ (∃ doc, objects s' !! r = Some doc
            ∧ PackageConfigYaml.name doc = filename
            ∧ OrderedDict.wf (PackageConfigYaml.data doc)
            ∧ ∃ data parsed,
                pkgutil_get_data package_name filename = Some data
                ∧ parseYaml data = Return parsed
                ∧ PackageConfigYaml.__init__ filename parsed = Return doc)
  ∧ (∀ r', r' ≠ r → objects s' !! r' = objects s !! r')
  ∧ _yaml_cache s' !! (package_name, filename) = Some r
  ∧ (∀ key, key ≠ (package_name, filename) →
            _yaml_cache s' !! key = _yaml_cache s !! key).
Proof.
  intros Hcache Hrun.
  destruct (parsePackageYaml_outcomes _ _ _ _ _ Hrun)
    as (_ & _ & [(r0 & Hhit & _) | [(_ & (e & [=]) & _) |
        (_ & r0 & doc & data & parsed & [= <-] & Hdata & Hparse & Hinit
           & Hnew & -> & ->)]]); [congruence|].
  split; [done|]. split; [|split; [|split]].
  - exists doc. rewrite lookup_insert_eq. split; [done|].
    assert (PackageConfigYaml.name doc = filename) as Hname.
    { unfold PackageConfigYaml.__init__ in Hinit. unfold_result.
      destruct parsed; try done.
      destruct (PackageConfigYaml.init_loop filename [] items); by simplify_eq. }
    split; [done|]. split; [by eapply init_wf|]. by exists data, parsed.
  - intros r' Hne. by rewrite lookup_insert_ne.
  - by rewrite lookup_insert_eq.
  - intros key Hne. by rewrite lookup_insert_ne.
Qed.

Lemma parsePackageYaml_preserves_cache_entry package_name filename key r :
  preserves (λ s, _yaml_cache s !! key = Some r)
    (parsePackageYaml package_name filename).
Proof.
  intros s Hentry.
  destruct (parsePackageYaml package_name filename s) as [outcome s'] eqn:Hrun.
  simpl.
  destruct (parsePackageYaml_outcomes _ _ _ _ _ Hrun)
    as (_ & _ & [(r0 & _ & _ & ->) | [(_ & _ & _ & ->) |
        (Hmiss & r0 & doc & data & parsed & _ & _ & _ & _ & _ & _ & ->)]]);
    [done | done |].
  rewrite lookup_insert_ne; [done|]. intros <-. congruence.
Qed.

Lemma parsePackageYaml_preserves_config package_name filename (c : option ref) :
  preserves (λ s, _package_config s = c) (parsePackageYaml package_name filename).
Proof.
  intros s Hconfig.
  destruct (parsePackageYaml package_name filename s) as [outcome s'] eqn:Hrun.
  simpl. destruct (parsePackageYaml_outcomes _ _ _ _ _ Hrun) as (_ & -> & _).
  done.
Qed.

Lemma parsePackageYaml_preserves_outside package_name filename s0 :
  preserves (same_outside_loader s0) (parsePackageYaml package_name filename).
Proof.
  intros s [Hfiles Hinfos].
  destruct (parsePackageYaml package_name filename s) as [outcome s'] eqn:Hrun.
  simpl. destruct (parsePackageYaml_outcomes _ _ _ _ _ Hrun) as ([Hf Hi] & _).
  unfold same_outside_loader. by rewrite Hf, Hi.
Qed.

Lemma getYamlPackageConfiguration_preserves (P : state → Prop) :
  (∀ f s, P s → P (set_objects f s)) →
  (∀ filename s, P s → P (add_parse_call (ParsedUserFile filename) s)) →
  (∀ c s, P s → P (set_package_config c s)) →
  (∀ package_name filename, preserves P (parsePackageYaml package_name filename)) →
  preserves P getYamlPackageConfiguration.
Proof.
  intros Hobjects Huser Hconfig Hparse. unfold getYamlPackageConfiguration.
  apply preserves_bind; [apply preserves_gets|]. intros current.
  apply preserves_bind; [|intros _; apply preserves_gets].
  case_bool_decide; [|apply preserves_ret].
  unfold build_package_config.
  apply preserves_bind; [apply Hparse|]. intros standard.
  apply preserves_bind; [apply preserves_modify, Hconfig|]. intros _.
  by apply preserves_merge_further_sources.
Qed.

(** X13. Nothing is ever evicted from the load cache or replaced in it:
    an entry present before a call of the loader or of the accessor is
    present, with the same reference, after it, however the call ends; and
    neither of them writes a file. *)
Theorem cache_entries_persist s key r :
  _yaml_cache s !! key = Some r →
  (∀ package_name filename,
     _yaml_cache (parsePackageYaml package_name filename s).2 !! key = Some r
     ∧ files (parsePackageYaml package_name filename s).2 = files s)
  ∧ _yaml_cache (getYamlPackageConfiguration s).2 !! key = Some r
  ∧ files (getYamlPackageConfiguration s).2 = files s.
Proof.
  intros Hentry. split; [|split].
  - intros package_name filename. split.
    + by apply (parsePackageYaml_preserves_cache_entry package_name filename key r).
    + by apply (parsePackageYaml_preserves_outside package_name filename s s).
  - apply (getYamlPackageConfiguration_preserves
             (λ s, _yaml_cache s !! key = Some r)); try done.
    intros package_name filename.
    apply parsePackageYaml_preserves_cache_entry.
  - apply (getYamlPackageConfiguration_preserves (same_outside_loader s));
      try done.
    intros package_name filename. apply parsePackageYaml_preserves_outside.
Qed.

End LoaderState.

Section AggregatorState.

Context `{Externals}.

Implicit Types (s : state) (r self other : ref).

Lemma merge_further_sources_keeps_config s r :
  _package_config s = Some r →
  _package_config (merge_further_sources s).2 = Some r.
Proof.
  apply (preserves_merge_further_sources (λ s, _package_config s = Some r));
    try done.
  intros package_name filename. apply parsePackageYaml_preserves_config.
Qed.

Lemma merge_further_sources_keeps_cache_entry s key r :
  _yaml_cache s !! key = Some r →
  _yaml_cache (merge_further_sources s).2 !! key = Some r.
Proof.
  apply (preserves_merge_further_sources (λ s, _yaml_cache s !! key = Some r));
    try done.
  intros package_name filename. apply parsePackageYaml_preserves_cache_entry.
Qed.

Lemma getYamlPackageConfiguration_first s :
  _package_config s = None →
  getYamlPackageConfiguration s
  = match parsePackageYaml standard_key.1 standard_key.2 s with
    | (inl e, s1) => (inl e, s1)
    | (inr standard, s1) =>
        match merge_further_sources (set_package_config (Some standard) s1) with
        | (inl e, s2) => (inl e, s2)
        | (inr _, s2) => (Return (_package_config s2), s2)
        end
    end.
Proof.
  intros Hnone. unfold getYamlPackageConfiguration, build_package_config.
  unfold_M. rewrite Hnone. rewrite bool_decide_eq_true_2 by done. simpl.
  destruct (parsePackageYaml _ _ s) as [[e|standard] s1]; [done|].
  by destruct (merge_further_sources _) as [[e|[]] s2].
Qed.

(** X14. The global is assigned before the further sources are merged:
    when the standard document loads and a later source fails, the
    accessor raises, but the configuration stays set to the standard
    document as far as it was merged, and the next call returns that
    partial configuration without an error and without loading anything. *)
Theorem failed_build_leaves_partial_configuration s standard s1 e s2 :
  _package_config s = None →
  parsePackageYaml standard_key.1 standard_key.2 s = (Return standard, s1) →
  merge_further_sources (set_package_config (Some standard) s1) = (Raise e, s2) →
  getYamlPackageConfiguration s = (Raise e, s2)
  ∧ getYamlPackageConfiguration s2 = (Return (Some standard), s2).
Proof.
  intros Hnone Hstandard Hmerge.
  rewrite (getYamlPackageConfiguration_first s Hnone), Hstandard.
  unfold Return, Raise in *. rewrite Hmerge. split; [done|].
  apply getYamlPackageConfiguration_set.
  pose proof (merge_further_sources_keeps_config
                (set_package_config (Some standard) s1) standard eq_refl) as Hkept.
  by rewrite Hmerge in Hkept.
Qed.

(** X15. The aggregate is the cached standard document itself, not a
    copy: after a first call of the accessor that returns, the reference it
    hands out is the one the cache holds for the standard resource, so
    loading the standard resource afterwards yields the aggregate with
    everything merged into it. *)
Theorem aggregate_is_cached_standard_document s config s' :
  _package_config s = None →
  getYamlPackageConfiguration s = (Return config, s') →
  ∃ r, config = Some r
       ∧ _yaml_cache s' !! standard_key = Some r
       ∧ parsePackageYaml standard_key.1 standard_key.2 s' = (Return r, s').
Proof.
  intros Hnone. rewrite (getYamlPackageConfiguration_first s Hnone).
  destruct (parsePackageYaml standard_key.1 standard_key.2 s)
    as [[e|standard] s1] eqn:Hstandard; [intros ?; simplify_eq|].
  apply parsePackageYaml_Return in Hstandard as Hcached.
  pose proof (merge_further_sources_keeps_config
                (set_package_config (Some standard) s1) standard eq_refl) as Hconfig.
  pose proof (merge_further_sources_keeps_cache_entry
                (set_package_config (Some standard) s1) standard_key standard
                Hcached) as Hentry.
  destruct (merge_further_sources (set_package_config (Some standard) s1))
    as [[e|[]] s2]; [intros ?; simplify_eq|].
  simpl in Hconfig, Hentry. intros [= <- <-].
  exists standard. split; [done|]. split; [done|].
  by apply parsePackageYaml_hit.
Qed.

(** X17. A merge through references changes the object behind [self] and
    nothing else: every other object, [other] included when it is another
    object, the cache, the configuration and the files are as before. And a
    non-empty document merged into itself fails on its first module name
    and is left as it was. *)
Theorem update_touches_only_self s self other outcome s' :
  update self other s = (outcome, s') →
  ((∀ r, r ≠ self → objects s' !! r = objects s !! r)
   ∧ _yaml_cache s' = _yaml_cache s
   ∧ _package_config s' = _package_config s
   ∧ files s' = files s)
  ∧ (∀ doc key entry rest,
       self = other →
       objects s !! self = Some doc →
       PackageConfigYaml.data doc = (key, entry) :: rest →
       outcome = Raise (AssertionError key) ∧ objects s' !! self = Some doc).
Proof.
  unfold update. intros Hrun. split.
  - destruct (objects s !! self) as [self_obj|]; [|by simplify_eq].
    destruct (objects s !! other) as [other_obj|]; [|by simplify_eq].
    destruct (PackageConfigYaml.update self_obj other_obj) as [self_obj' failure].
    destruct failure; simplify_eq; simpl; repeat split; try done;
      intros r Hne; by rewrite lookup_insert_ne.
  - intros doc key entry rest <- Hdoc Hdata. rewrite Hdoc in Hrun.
    unfold PackageConfigYaml.update, PackageConfigYaml.items in Hrun.
    rewrite Hdata in Hrun. simpl in Hrun.
    unfold OrderedDict.contains in Hrun. simpl in Hrun.
    rewrite decide_True in Hrun by done.
    rewrite bool_decide_eq_true_2 in Hrun by by eexists.
    simplify_eq. simpl. split; [done|]. rewrite lookup_insert_eq.
    f_equal. destruct doc as [doc_name doc_data]. simpl in *. by subst.
Qed.

End AggregatorState.

(** ** Instances of the further properties *)

Lemma construction_stores_each_record_witness :
  OrderedDict.wf (PackageConfigYaml.data Sample.foo_document)
  ∧ Forall2 (@accepted_record Sample.externals)
      [VDict [("module-name", VStr "foo");
              ("data-files", VDict [("dirs", VList [VStr "x"])])]]
      (PackageConfigYaml.items Sample.foo_document).
Proof.
  destruct (@construction_stores_each_record Sample.externals "standard.yml"
              [VDict [("module-name", VStr "foo");
                      ("data-files", VDict [("dirs", VList [VStr "x"])])]]
              Sample.foo_document) as (_ & Hwf & Hall).
  - vm_compute. reflexivity.
  - by split.
Defined.

Lemma get_after_construction_witness :
  PackageConfigYaml.get Sample.foo_document "foo" "data-files"
  = as_section (Some (VDict [("dirs", VList [VStr "x"])])).
Proof.
  apply (@get_after_construction Sample.externals "standard.yml"
           [VDict [("module-name", VStr "foo");
                   ("data-files", VDict [("dirs", VList [VStr "x"])])]]
           Sample.foo_document 0
           [("module-name", VStr "foo");
            ("data-files", VDict [("dirs", VList [VStr "x"])])]
           "foo" "data-files").
  - vm_compute. reflexivity.
  - reflexivity.
  - reflexivity.
  - discriminate.
Defined.

Lemma non_string_module_name_raises_TypeError_witness :
  @PackageConfigYaml.accept_item Sample.externals "user.yml" []
    (VDict [("module-name", VInt 123); ("data-files", VNone)])
  = Raise TypeError.
Proof.
  apply (@non_string_module_name_raises_TypeError Sample.externals "user.yml" []
           [("module-name", VInt 123); ("data-files", VNone)]
           (VInt 123) [("data-files", VNone)]).
  - reflexivity.
  - right. left. exists 123%Z. split; [lia | reflexivity].
Defined.

Lemma failed_merge_keeps_earlier_entries_witness :
  PackageConfigYaml.update Sample.foo_document Sample.baz_document
  = (PackageConfigYaml.Build "standard.yml"
       (PackageConfigYaml.data Sample.foo_document ++ [("baz", [("options", VNone)])]),
     Some (AssertionError "foo")).
Proof.
  apply (failed_merge_keeps_earlier_entries Sample.foo_document
           Sample.baz_document [("baz", [("options", VNone)])] "foo"
           [("options", VNone)] [("late", [("options", VNone)])]).
  - reflexivity.
  - vm_compute. apply NoDup_singleton.
  - intros k Hk. vm_compute in Hk. vm_compute.
    apply list_elem_of_singleton in Hk as ->.
    intros Hbaz. by apply list_elem_of_singleton in Hbaz.
  - vm_compute. apply list_elem_of_here.
Defined.

Lemma update_only_appends_witness :
  OrderedDict.get "foo"
    (PackageConfigYaml.data
       (PackageConfigYaml.update Sample.foo_document Sample.baz_document).1)
  = Some [("data-files", VDict [("dirs", VList [VStr "x"])])].
Proof.
  destruct (update_only_appends Sample.foo_document Sample.baz_document
              (PackageConfigYaml.update Sample.foo_document Sample.baz_document).1
              (PackageConfigYaml.update Sample.foo_document Sample.baz_document).2)
    as (_ & _ & Hkept & _).
  - vm_compute. reflexivity.
  - apply Hkept. vm_compute. reflexivity.
Defined.

Lemma get_after_update_witness :
  PackageConfigYaml.get
    (PackageConfigYaml.update Sample.foo_document Sample.bar_document).1
    "bar" "anti-bloat"
  = PackageConfigYaml.get Sample.bar_document "bar" "anti-bloat".
Proof.
  rewrite (get_after_update Sample.foo_document Sample.bar_document
             (PackageConfigYaml.update Sample.foo_document Sample.bar_document).1
             "bar" "anti-bloat").
  - vm_compute. reflexivity.
  - vm_compute. apply NoDup_singleton.
  - intros key Hkey. vm_compute in Hkey. vm_compute.
    apply list_elem_of_singleton in Hkey as ->.
    intros Hbar. by apply list_elem_of_singleton in Hbar.
  - vm_compute. reflexivity.
Defined.

Lemma checksum_single_separator_covers_rest_witness :
  Sample.one_document
  = join [x0a] (Sample.header
                ++ [b "# checksum: " ++ encode_utf8 (Sample.hash Sample.standard_body)])
    ++ header_separator ++ Sample.standard_body
  ∧ @_calculateYamlFileChecksum Sample.externals
      (join [x0a] (Sample.header
                   ++ [b "# checksum: "
                       ++ encode_utf8 (Sample.hash Sample.standard_body)])
       ++ header_separator ++ Sample.standard_body)
    = Return (encode_utf8 (Sample.hash Sample.standard_body)).
Proof.
  split; [vm_compute; reflexivity|].
  apply (@checksum_single_separator_covers_rest Sample.externals).
  - apply (find_occurs header_separator).
    vm_compute. reflexivity.
  - vm_compute. reflexivity.
Defined.

Lemma written_checksum_is_read_back_witness :
  getYamlFileChecksum
    (rewritten Sample.stale (encode_utf8 (Sample.hash Sample.standard_body)))
  = Return (Some (encode_utf8 (Sample.hash Sample.standard_body)))
  ∧ @checkOrUpdateChecksum Sample.externals "stale.yml" false
      (set_files
         <["stale.yml" :=
             rewritten Sample.stale
               (encode_utf8 (Sample.hash Sample.standard_body))]> Sample.start)
    = (Return (),
       add_info "OK, checksum valid."
         (set_files
            <["stale.yml" :=
                rewritten Sample.stale
                  (encode_utf8 (Sample.hash Sample.standard_body))]> Sample.start)).
Proof.
  destruct (@written_checksum_is_read_back Sample.externals Sample.stale
              (b "# checksum: 00")
              (encode_utf8 (Sample.hash Sample.standard_body)))
    as [Hread Hstable].
  - vm_compute. reflexivity.
  - split; [vm_compute; discriminate|].
    vm_compute. repeat (apply Forall_cons; split; [reflexivity|]).
    apply Forall_nil_2.
  - split; [exact Hread|]. apply Hstable; vm_compute; reflexivity.
Defined.

Lemma tool_writes_only_on_authorized_success_witness :
  (@checkOrUpdateChecksum Sample.externals "stale.yml" false Sample.start).2
  = Sample.start.
Proof.
  destruct (@tool_writes_only_on_authorized_success Sample.externals Sample.start
              "stale.yml" false
              (@checkOrUpdateChecksum Sample.externals "stale.yml" false
                 Sample.start).1
              (@checkOrUpdateChecksum Sample.externals "stale.yml" false
                 Sample.start).2)
    as (Hfailed & _ & _).
  - apply surjective_pairing.
  - apply (Hfailed (SystemExit
      "Error, checksum does not match, use --update or enable commit hook.")).
    vm_compute. reflexivity.
Defined.

Lemma classification_agrees_with_reader_witness :
  @classify_checksum Sample.externals Sample.one_document = Return "matching".
Proof.
  destruct (@classification_agrees_with_reader Sample.externals Sample.one_document)
    as (_ & _ & Hmatching).
  apply (Hmatching (encode_utf8 (Sample.hash Sample.standard_body)));
    vm_compute; reflexivity.
Defined.

Lemma tool_requires_marker_line_witness :
  @checkOrUpdateChecksum Sample.externals "user.yml" true Sample.start
  = (Raise (SystemExit "Make sure the file is autoformatted first."), Sample.start).
Proof.
  apply (@tool_requires_marker_line Sample.externals Sample.start "user.yml" true
           Sample.user_body).
  - vm_compute. reflexivity.
  - left. vm_compute. lia.
Defined.

Lemma failed_load_caches_nothing_witness :
  _yaml_cache
    (@parsePackageYaml Sample.externals "nuitka.plugins.standard" "headless.yml"
       Sample.loaded).2
  = _yaml_cache Sample.loaded.
Proof.
  apply (@failed_load_caches_nothing Sample.externals Sample.loaded
           "nuitka.plugins.standard" "headless.yml"
           (ValueError "Malformed yaml data without --- header")).
  vm_compute. reflexivity.
Defined.

Lemma cache_miss_allocates_new_object_witness :
  objects Sample.start !! 0 = None
  ∧ _yaml_cache Sample.loaded !! standard_key = Some 0.
Proof.
  destruct (@cache_miss_allocates_new_object Sample.externals Sample.start
              "nuitka.plugins.standard" "standard.nuitka-package.config.yml"
              0 Sample.loaded)
    as (Hnew & _ & _ & Hcached & _).
  - vm_compute. reflexivity.
  - vm_compute. reflexivity.
  - by split.
Defined.

Lemma cache_entries_persist_witness :
  _yaml_cache (@getYamlPackageConfiguration Sample.externals Sample.loaded).2
    !! standard_key = Some 0.
Proof.
  apply (@cache_entries_persist Sample.externals Sample.loaded standard_key 0).
  vm_compute. reflexivity.
Defined.

Lemma failed_build_leaves_partial_configuration_witness :
  @getYamlPackageConfiguration Sample.clashing Sample.start
  = (Raise (AssertionError "foo"), Sample.failed)
  ∧ @getYamlPackageConfiguration Sample.clashing Sample.failed
    = (Return (Some 0), Sample.failed).
Proof.
  apply (@failed_build_leaves_partial_configuration Sample.clashing Sample.start
           0 Sample.loaded (AssertionError "foo") Sample.failed).
  - reflexivity.
  - vm_compute. reflexivity.
  - vm_compute. reflexivity.
Defined.

Lemma aggregate_is_cached_standard_document_witness :
  ∃ r, Some 0 = Some r
       ∧ _yaml_cache Sample.built !! standard_key = Some r
       ∧ @parsePackageYaml Sample.externals standard_key.1 standard_key.2
           Sample.built
         = (Return r, Sample.built).
Proof.
  apply (@aggregate_is_cached_standard_document Sample.externals Sample.start).
  - reflexivity.
  - vm_compute. reflexivity.
Defined.

Lemma update_touches_only_self_witness :
  (update 0 0 Sample.built).1 = Raise (AssertionError "foo")
  ∧ objects (update 0 0 Sample.built).2 !! 0 = objects Sample.built !! 0.
Proof.
  destruct (update_touches_only_self Sample.built 0 0
              (update 0 0 Sample.built).1 (update 0 0 Sample.built).2)
    as [_ Hself].
  - apply surjective_pairing.
  - destruct (Hself
      (PackageConfigYaml.Build "standard.nuitka-package.config.yml"
         [("foo", [("data-files", VDict [("dirs", VList [VStr "x"])])]);
          ("bar.baz", []); ("qux", []); ("mine", [])])
      "foo" [("data-files", VDict [("dirs", VList [VStr "x"])])]
      [("bar.baz", []); ("qux", []); ("mine", [])]) as [Hout Hobj].
    + reflexivity.
    + vm_compute. reflexivity.
    + reflexivity.
    + split; [exact Hout|]. etransitivity; [exact Hobj|].
      vm_compute. reflexivity.
Defined.
